(** * DataUpdateCoordinator (homeassistant/helpers/update_coordinator.py)

    A shallow embedding of the coordinator that schedules periodic fetches,
    classifies their failures, and fans change notifications out to its
    listeners.

    Conventions of the embedding.
    - Instants and durations are integers counted in microseconds
      ([loop.time()], [timedelta.total_seconds()], [_microsecond]).
    - A coroutine is run to completion in one step: awaiting the update
      method is atomic, and what the await yields is an input of the cycle.
    - A method is a computation in the monad [M]: it reads and mutates the
      coordinator object, appends to a trace of observable calls, and either
      returns or raises.  Mutations made before a [raise] stay, as in Python.
*)

From Stdlib Require Import ZArith List String Bool Lia.
From stdpp Require Import base decidable list.
Import ListNotations.
Local Open Scope string_scope.
Local Open Scope list_scope.
Local Open Scope Z_scope.
Local Set Warnings "-register-all".

(** ** Exceptions *)

(** The exception classes the except clauses of [_async_refresh] name, plus
    [KeyError] (raised by [dict.pop]), [RuntimeError] and a catch-all for
    any other [Exception].  [ConfigEntryNotReady] carries its [__cause__]. *)
Inductive exception : Type :=
| TimeoutError
| RequestsTimeout            (* requests.exceptions.Timeout *)
| AiohttpClientError         (* aiohttp.ClientError *)
| RequestsRequestException   (* requests.exceptions.RequestException *)
| URLError (reason : string) (* urllib.error.URLError *)
| UpdateFailed (msg : string)
| ConfigEntryError
| ConfigEntryAuthFailed
| ConfigEntryNotReady (cause : option exception)
| NotImplementedError
| KeyError
| RuntimeError (msg : string)
| OtherException (msg : string).

(** The tuples of classes of the except clauses, in source order. *)
Inductive except_clause : Type :=
| ExceptTimeout            (* (TimeoutError, requests.exceptions.Timeout) *)
| ExceptClientError        (* (aiohttp.ClientError, RequestException) *)
| ExceptURLError
| ExceptUpdateFailed
| ExceptConfigEntryError
| ExceptConfigEntryAuthFailed
| ExceptNotImplementedError
| ExceptException.

(** [isinstance(err, classes)] for the classes of one clause.
    [requests.exceptions.Timeout] derives from [RequestException]; every
    class derives from [Exception]. *)
Definition isinstance (err : exception) (cl : except_clause) : bool :=
  match cl, err with
  | ExceptTimeout, (TimeoutError | RequestsTimeout) => true
  | ExceptClientError,
    (AiohttpClientError | RequestsRequestException | RequestsTimeout) => true
  | ExceptURLError, URLError _ => true
  | ExceptUpdateFailed, UpdateFailed _ => true
  | ExceptConfigEntryError, ConfigEntryError => true
  | ExceptConfigEntryAuthFailed, ConfigEntryAuthFailed => true
  | ExceptNotImplementedError, NotImplementedError => true
  | ExceptException, _ => true
  | _, _ => false
  end.

(** The first clause, in source order, that matches. *)
Definition matching_clause (err : exception) : except_clause :=
  if isinstance err ExceptTimeout then ExceptTimeout
  else if isinstance err ExceptClientError then ExceptClientError
  else if isinstance err ExceptURLError then ExceptURLError
  else if isinstance err ExceptUpdateFailed then ExceptUpdateFailed
  else if isinstance err ExceptConfigEntryError then ExceptConfigEntryError
  else if isinstance err ExceptConfigEntryAuthFailed
       then ExceptConfigEntryAuthFailed
  else if isinstance err ExceptNotImplementedError
       then ExceptNotImplementedError
  else ExceptException.

(** What awaiting the fetch yields. *)
Inductive fetch_result (T : Type) : Type :=
| Returns (value : T)
| Raises (err : exception).
Arguments Returns {T} value.
Arguments Raises {T} err.

(** ** Observable calls *)

Inductive log_method : Type := error | exception_ | info | debug.

Inductive method : Type := m_async_update_listeners | m_schedule_refresh.

(** A listener callback: a label to recognise it in a trace and the remove
    handles it invokes when it runs. *)
Record callback : Type := { cb_label : string; cb_unsubscribes : list nat }.

Inductive event : Type :=
| Log (how : log_method) (msg : string)
| Enter (m : method)          (* the method was invoked *)
| AwaitUpdate                 (* await self._async_update_data() *)
| CallAt (when : Z)           (* loop.call_at(next_refresh, ...) *)
| CancelCallAt                (* self._unsub_refresh() *)
| UnsubShutdown               (* self._unsub_shutdown() *)
| ListenOnceStop              (* hass.bus.async_listen_once(STOP, ...) *)
| Invoke (cb : callback)      (* update_callback() *)
| StartReauth.                (* config_entry.async_start_reauth(hass) *)

(** ** Collaborators *)

Record HomeAssistant : Type := { is_stopping : bool; loop_time : Z }.

Record ConfigEntry : Type := { pref_disable_polling : bool }.

(** Modelled from the spec: the Debouncer (helpers/debounce.py) is not among
    the sources.  Its state is the cooldown, the immediate flag, whether a
    trailing execution is armed, whether a cooldown window is active, and
    whether [shutdown()] has made it permanently inert. *)
Record Debouncer : Type := {
  cooldown : Z;
  immediate : bool;
  pending : bool;
  window : bool;
  inert : bool
}.

Definition REQUEST_REFRESH_DEFAULT_COOLDOWN : Z := 10 * 1000000.
Definition REQUEST_REFRESH_DEFAULT_IMMEDIATE : bool := true.

(** Modelled from the spec: [event.RANDOM_MICROSECOND_MIN] and
    [event.RANDOM_MICROSECOND_MAX] (helpers/event.py) are not among the
    sources; the comment at their use gives the range 0.05 s to 0.50 s. *)
Definition RANDOM_MICROSECOND_MIN : Z := 50000.
Definition RANDOM_MICROSECOND_MAX : Z := 500000.

(** [random.randint(lo, hi)]: some integer of the closed range, picked by
    the entropy the generator consumes. *)
Definition randint (lo hi entropy : Z) : Z := lo + entropy mod (hi - lo + 1).

(** [int(x)] for a time in microseconds: the whole seconds, truncated toward
    zero. *)
Definition int (t : Z) : Z := Z.quot t 1000000 * 1000000.

(** ** Insertion-ordered dictionaries keyed by remove handles *)

Section Dict.
Context {V : Type}.

Definition dict : Type := list (nat * V).

Definition dict_keys (d : dict) : list nat := map fst d.

Definition dict_values (d : dict) : list V := map snd d.

(** [d[k] = v] for a key that is a fresh object. *)
Definition dict_setitem (k : nat) (v : V) (d : dict) : dict := d ++ [(k, v)].

(** [d.pop(k)] without default: [None] stands for [KeyError]. *)
Fixpoint dict_pop (k : nat) (d : dict) : option (V * dict) :=
  match d with
  | [] => None
  | (k', v) :: rest =>
      if Nat.eqb k k' then Some (v, rest)
      else match dict_pop k rest with
           | Some (v', rest') => Some (v', (k', v) :: rest')
           | None => None
           end
  end.

(** Truthiness of a dict. *)
Definition dict_nonempty (d : dict) : bool :=
  match d with [] => false | _ :: _ => true end.
End Dict.
Arguments dict V : clear implicits.

(** How a method ends. *)
Inductive result (A : Type) : Type :=
| Ok (a : A)
| Raise (e : exception).
Arguments Ok {A} a.
Arguments Raise {A} e.

(** ** The coordinator object *)

Section Coordinator.
(** [_DataT], compared with [!=], and the opaque per-listener context. *)
Context {T Ctx : Type} `{EqDecision T}.

Record Coordinator : Type := {
  hass : HomeAssistant;
  logger_debug : bool;             (* logger.isEnabledFor(logging.DEBUG) *)
  name : string;
  _update_interval : option Z;
  _update_interval_seconds : option Z;
  _shutdown_requested : bool;
  config_entry : option ConfigEntry;
  always_update : bool;
  data : option T;                 (* None before the first success *)
  _microsecond : Z;
  _listeners : dict (callback * option Ctx);
  next_handle : nat;               (* identity of the next closure *)
  _unsub_refresh : option Z;       (* the armed timer and when it fires *)
  _unsub_shutdown : bool;          (* a stop listener is registered *)
  last_update_success : bool;
  last_exception : option exception;
  _debounced_refresh : Debouncer
}.

Definition set_hass (v : HomeAssistant) (c : Coordinator) : Coordinator :=
  {| hass := v; logger_debug := logger_debug c; name := name c;
     _update_interval := _update_interval c;
     _update_interval_seconds := _update_interval_seconds c;
     _shutdown_requested := _shutdown_requested c;
     config_entry := config_entry c; always_update := always_update c;
     data := data c; _microsecond := _microsecond c;
     _listeners := _listeners c; next_handle := next_handle c;
     _unsub_refresh := _unsub_refresh c;
     _unsub_shutdown := _unsub_shutdown c;
     last_update_success := last_update_success c;
     last_exception := last_exception c;
     _debounced_refresh := _debounced_refresh c |}.

Definition set_update_interval_fields (v vs : option Z) (c : Coordinator)
  : Coordinator :=
  {| hass := hass c; logger_debug := logger_debug c; name := name c;
     _update_interval := v;
     _update_interval_seconds := vs;
     _shutdown_requested := _shutdown_requested c;
     config_entry := config_entry c; always_update := always_update c;
     data := data c; _microsecond := _microsecond c;
     _listeners := _listeners c; next_handle := next_handle c;
     _unsub_refresh := _unsub_refresh c;
     _unsub_shutdown := _unsub_shutdown c;
     last_update_success := last_update_success c;
     last_exception := last_exception c;
     _debounced_refresh := _debounced_refresh c |}.

Definition set_shutdown_requested (v : bool) (c : Coordinator) : Coordinator :=
  {| hass := hass c; logger_debug := logger_debug c; name := name c;
     _update_interval := _update_interval c;
     _update_interval_seconds := _update_interval_seconds c;
     _shutdown_requested := v;
     config_entry := config_entry c; always_update := always_update c;
     data := data c; _microsecond := _microsecond c;
     _listeners := _listeners c; next_handle := next_handle c;
     _unsub_refresh := _unsub_refresh c;
     _unsub_shutdown := _unsub_shutdown c;
     last_update_success := last_update_success c;
     last_exception := last_exception c;
     _debounced_refresh := _debounced_refresh c |}.

Definition set_config_entry (v : option ConfigEntry) (c : Coordinator)
  : Coordinator :=
  {| hass := hass c; logger_debug := logger_debug c; name := name c;
     _update_interval := _update_interval c;
     _update_interval_seconds := _update_interval_seconds c;
     _shutdown_requested := _shutdown_requested c;
     config_entry := v; always_update := always_update c;
     data := data c; _microsecond := _microsecond c;
     _listeners := _listeners c; next_handle := next_handle c;
     _unsub_refresh := _unsub_refresh c;
     _unsub_shutdown := _unsub_shutdown c;
     last_update_success := last_update_success c;
     last_exception := last_exception c;
     _debounced_refresh := _debounced_refresh c |}.

Definition set_data (v : option T) (c : Coordinator) : Coordinator :=
  {| hass := hass c; logger_debug := logger_debug c; name := name c;
     _update_interval := _update_interval c;
     _update_interval_seconds := _update_interval_seconds c;
     _shutdown_requested := _shutdown_requested c;
     config_entry := config_entry c; always_update := always_update c;
     data := v; _microsecond := _microsecond c;
     _listeners := _listeners c; next_handle := next_handle c;
     _unsub_refresh := _unsub_refresh c;
     _unsub_shutdown := _unsub_shutdown c;
     last_update_success := last_update_success c;
     last_exception := last_exception c;
     _debounced_refresh := _debounced_refresh c |}.

Definition set_listeners (v : dict (callback * option Ctx)) (n : nat)
    (c : Coordinator) : Coordinator :=
  {| hass := hass c; logger_debug := logger_debug c; name := name c;
     _update_interval := _update_interval c;
     _update_interval_seconds := _update_interval_seconds c;
     _shutdown_requested := _shutdown_requested c;
     config_entry := config_entry c; always_update := always_update c;
     data := data c; _microsecond := _microsecond c;
     _listeners := v; next_handle := n;
     _unsub_refresh := _unsub_refresh c;
     _unsub_shutdown := _unsub_shutdown c;
     last_update_success := last_update_success c;
     last_exception := last_exception c;
     _debounced_refresh := _debounced_refresh c |}.

Definition set_unsub_refresh (v : option Z) (c : Coordinator) : Coordinator :=
  {| hass := hass c; logger_debug := logger_debug c; name := name c;
     _update_interval := _update_interval c;
     _update_interval_seconds := _update_interval_seconds c;
     _shutdown_requested := _shutdown_requested c;
     config_entry := config_entry c; always_update := always_update c;
     data := data c; _microsecond := _microsecond c;
     _listeners := _listeners c; next_handle := next_handle c;
     _unsub_refresh := v;
     _unsub_shutdown := _unsub_shutdown c;
     last_update_success := last_update_success c;
     last_exception := last_exception c;
     _debounced_refresh := _debounced_refresh c |}.

Definition set_unsub_shutdown (v : bool) (c : Coordinator) : Coordinator :=
  {| hass := hass c; logger_debug := logger_debug c; name := name c;
     _update_interval := _update_interval c;
     _update_interval_seconds := _update_interval_seconds c;
     _shutdown_requested := _shutdown_requested c;
     config_entry := config_entry c; always_update := always_update c;
     data := data c; _microsecond := _microsecond c;
     _listeners := _listeners c; next_handle := next_handle c;
     _unsub_refresh := _unsub_refresh c;
     _unsub_shutdown := v;
     last_update_success := last_update_success c;
     last_exception := last_exception c;
     _debounced_refresh := _debounced_refresh c |}.

Definition set_last_update_success (v : bool) (c : Coordinator)
  : Coordinator :=
  {| hass := hass c; logger_debug := logger_debug c; name := name c;
     _update_interval := _update_interval c;
     _update_interval_seconds := _update_interval_seconds c;
     _shutdown_requested := _shutdown_requested c;
     config_entry := config_entry c; always_update := always_update c;
     data := data c; _microsecond := _microsecond c;
     _listeners := _listeners c; next_handle := next_handle c;
     _unsub_refresh := _unsub_refresh c;
     _unsub_shutdown := _unsub_shutdown c;
     last_update_success := v;
     last_exception := last_exception c;
     _debounced_refresh := _debounced_refresh c |}.

Definition set_last_exception (v : option exception) (c : Coordinator)
  : Coordinator :=
  {| hass := hass c; logger_debug := logger_debug c; name := name c;
     _update_interval := _update_interval c;
     _update_interval_seconds := _update_interval_seconds c;
     _shutdown_requested := _shutdown_requested c;
     config_entry := config_entry c; always_update := always_update c;
     data := data c; _microsecond := _microsecond c;
     _listeners := _listeners c; next_handle := next_handle c;
     _unsub_refresh := _unsub_refresh c;
     _unsub_shutdown := _unsub_shutdown c;
     last_update_success := last_update_success c;
     last_exception := v;
     _debounced_refresh := _debounced_refresh c |}.

Definition set_debounced_refresh (v : Debouncer) (c : Coordinator)
  : Coordinator :=
  {| hass := hass c; logger_debug := logger_debug c; name := name c;
     _update_interval := _update_interval c;
     _update_interval_seconds := _update_interval_seconds c;
     _shutdown_requested := _shutdown_requested c;
     config_entry := config_entry c; always_update := always_update c;
     data := data c; _microsecond := _microsecond c;
     _listeners := _listeners c; next_handle := next_handle c;
     _unsub_refresh := _unsub_refresh c;
     _unsub_shutdown := _unsub_shutdown c;
     last_update_success := last_update_success c;
     last_exception := last_exception c;
     _debounced_refresh := v |}.

(** ** The monad of methods *)

Record Run (A : Type) : Type := {
  final : Coordinator;
  trace : list event;
  outcome : result A
}.
Arguments final {A} r.
Arguments trace {A} r.
Arguments outcome {A} r.

Definition M (A : Type) : Type := Coordinator -> Run A.

Definition ret {A} (a : A) : M A :=
  fun c => {| final := c; trace := []; outcome := Ok a |}.

Definition raise {A} (e : exception) : M A :=
  fun c => {| final := c; trace := []; outcome := Raise e |}.

Definition bind {A B} (m : M A) (k : A -> M B) : M B :=
  fun c =>
    let r := m c in
    match outcome r with
    | Ok a =>
        let r' := k a (final r) in
        {| final := final r'; trace := trace r ++ trace r';
           outcome := outcome r' |}
    | Raise e => {| final := final r; trace := trace r; outcome := Raise e |}
    end.

Definition get : M Coordinator :=
  fun c => {| final := c; trace := []; outcome := Ok c |}.

Definition modify (f : Coordinator -> Coordinator) : M unit :=
  fun c => {| final := f c; trace := []; outcome := Ok tt |}.

Definition emit (ev : event) : M unit :=
  fun c => {| final := c; trace := [ev]; outcome := Ok tt |}.

Definition when (b : bool) (m : M unit) : M unit :=
  if b then m else ret tt.

(** [try: m finally: f]: [f] runs whatever [m] did; an exception of [m]
    propagates afterwards unless [f] raises one of its own. *)
Definition try_finally {A} (m : M A) (f : M unit) : M A :=
  fun c =>
    let r := m c in
    let r' := f (final r) in
    {| final := final r'; trace := trace r ++ trace r';
       outcome := match outcome r' with
                  | Ok _ => outcome r
                  | Raise e => Raise e
                  end |}.

(** A job run by the event loop: its exception is the loop's to report and
    does not reach the next job. *)
Definition job {A} (m : M A) : M unit :=
  fun c =>
    let r := m c in
    {| final := final r; trace := trace r; outcome := Ok tt |}.

(** [for x in xs: body(x)] *)
Fixpoint for_each {A} (xs : list A) (body : A -> M unit) : M unit :=
  match xs with
  | [] => ret tt
  | x :: rest => bind (body x) (fun _ => for_each rest body)
  end.

Declare Scope method_scope.
Delimit Scope method_scope with method.
Notation "x <- m ;; k" := (bind m (fun x => k))
  (at level 100, m at next level, right associativity) : method_scope.
Notation "m ;; k" := (bind m (fun _ => k))
  (at level 100, right associativity) : method_scope.
Local Open Scope method_scope.

(** ** The Debouncer's operations *)

Definition set_pending (v : bool) (d : Debouncer) : Debouncer :=
  {| cooldown := cooldown d; immediate := immediate d; pending := v;
     window := window d; inert := inert d |}.

Definition set_window (v : bool) (d : Debouncer) : Debouncer :=
  {| cooldown := cooldown d; immediate := immediate d; pending := pending d;
     window := v; inert := inert d |}.

Definition set_inert (v : bool) (d : Debouncer) : Debouncer :=
  {| cooldown := cooldown d; immediate := immediate d; pending := pending d;
     window := window d; inert := v |}.

Definition modify_debouncer (f : Debouncer -> Debouncer) : M unit :=
  modify (fun c => set_debounced_refresh (f (_debounced_refresh c)) c).

(** Modelled from the spec: [cancel()] aborts a pending trailing
    execution. *)
Definition Debouncer_async_cancel : M unit :=
  modify_debouncer (set_pending false).

(** Modelled from the spec: [shutdown()] cancels a pending execution and
    makes the debouncer permanently inert. *)
Definition Debouncer_async_shutdown : M unit :=
  modify_debouncer (fun d => set_inert true (set_pending false d)).

(** Modelled from the spec: the first call of a quiescent period runs the
    action at once when [immediate] (else it arms the trailing execution);
    a call inside the cooldown window arms the one trailing execution. *)
Definition Debouncer_async_call (function : M unit) : M unit :=
  c <- get ;;
  let d := _debounced_refresh c in
  if inert d then ret tt
  else if window d then modify_debouncer (set_pending true)
  else
    modify_debouncer (set_window true) ;;
    if immediate d then function else modify_debouncer (set_pending true).

(** Modelled from the spec: at cooldown expiry the window closes and the
    trailing execution, if armed, runs. *)
Definition Debouncer_on_cooldown_expiry (function : M unit) : M unit :=
  c <- get ;;
  let d := _debounced_refresh c in
  if inert d then ret tt
  else
    modify_debouncer (fun d => set_window false (set_pending false d)) ;;
    when (pending d) function.

(** ** DataUpdateCoordinator *)

Definition default_debouncer : Debouncer :=
  {| cooldown := REQUEST_REFRESH_DEFAULT_COOLDOWN;
     immediate := REQUEST_REFRESH_DEFAULT_IMMEDIATE;
     pending := false; window := false; inert := false |}.

(** [value.total_seconds() if value else None]: a zero timedelta is falsy. *)
Definition total_seconds_if (value : option Z) : option Z :=
  match value with
  | Some v => if Z.eqb v 0 then None else Some v
  | None => None
  end.

(** The constructor.  [current_entry] is [config_entries.current_entry.get()]
    and [entropy] what [randint] consumes; the job name and the unload hook
    registered with the config entry leave the fields below as they are. *)
Definition __init__ (hass : HomeAssistant) (logger_debug : bool)
    (name : string) (update_interval : option Z)
    (request_refresh_debouncer : option Debouncer) (always_update : bool)
    (current_entry : option ConfigEntry) (entropy : Z) : Coordinator :=
  {| hass := hass; logger_debug := logger_debug; name := name;
     _update_interval := update_interval;
     _update_interval_seconds := total_seconds_if update_interval;
     _shutdown_requested := false;
     config_entry := current_entry;
     always_update := always_update;
     data := None;
     _microsecond :=
       randint RANDOM_MICROSECOND_MIN RANDOM_MICROSECOND_MAX entropy;
     _listeners := [];
     next_handle := O;
     _unsub_refresh := None;
     _unsub_shutdown := false;
     last_update_success := true;
     last_exception := None;
     _debounced_refresh :=
       match request_refresh_debouncer with
       | None => default_debouncer
       | Some d => d
       end |}.

Definition _async_unsub_refresh : M unit :=
  c <- get ;;
  match _unsub_refresh c with
  | Some _ => emit CancelCallAt ;; modify (set_unsub_refresh None)
  | None => ret tt
  end.

Definition _async_unsub_shutdown : M unit :=
  c <- get ;;
  if _unsub_shutdown c
  then emit UnsubShutdown ;; modify (set_unsub_shutdown false)
  else ret tt.

Definition async_register_shutdown : M unit :=
  c <- get ;;
  match config_entry c with
  | Some _ =>
      raise (RuntimeError "This should only be used outside of config entries.")
  | None => emit ListenOnceStop ;; modify (set_unsub_shutdown true)
  end.

Definition _unschedule_refresh : M unit :=
  _async_unsub_refresh ;;
  Debouncer_async_cancel.

(** [self.config_entry and self.config_entry.pref_disable_polling] *)
Definition polling_disabled (c : Coordinator) : bool :=
  match config_entry c with
  | Some entry => pref_disable_polling entry
  | None => false
  end.

Definition _schedule_refresh : M unit :=
  emit (Enter m_schedule_refresh) ;;
  c <- get ;;
  match _update_interval_seconds c with
  | None => ret tt
  | Some update_interval_seconds =>
      if polling_disabled c then ret tt
      else
        _async_unsub_refresh ;;
        c <- get ;;
        let next_refresh :=
          int (loop_time (hass c)) + _microsecond c + update_interval_seconds in
        emit (CallAt next_refresh) ;;
        modify (set_unsub_refresh (Some next_refresh))
  end.

(** The closure [remove_listener] of the listener registered under handle
    [h]. *)
Definition remove_listener (h : nat) : M unit :=
  c <- get ;;
  match dict_pop h (_listeners c) with
  | None => raise KeyError
  | Some (_, rest) =>
      modify (set_listeners rest (next_handle c)) ;;
      when (negb (dict_nonempty rest)) _unschedule_refresh
  end.

Definition async_add_listener (update_callback : callback)
    (context : option Ctx) : M nat :=
  c <- get ;;
  let schedule_refresh := negb (dict_nonempty (_listeners c)) in
  let remove_listener := next_handle c in
  modify (set_listeners
            (dict_setitem remove_listener (update_callback, context)
               (_listeners c))
            (S (next_handle c))) ;;
  when schedule_refresh _schedule_refresh ;;
  ret remove_listener.

(** [update_callback()] *)
Definition call (update_callback : callback) : M unit :=
  emit (Invoke update_callback) ;;
  for_each (cb_unsubscribes update_callback) remove_listener.

Definition async_update_listeners : M unit :=
  emit (Enter m_async_update_listeners) ;;
  c <- get ;;
  for_each (dict_values (_listeners c))
    (fun item => call (fst item)).

Definition async_shutdown : M unit :=
  modify (set_shutdown_requested true) ;;
  _async_unsub_refresh ;;
  _async_unsub_shutdown ;;
  Debouncer_async_shutdown.

Definition async_contexts (c : Coordinator) : list Ctx :=
  omap snd (dict_values (_listeners c)).

Definition update_interval_setter (value : option Z) : M unit :=
  modify (set_update_interval_fields value (total_seconds_if value)).

Definition _async_update_data (update_method : option (fetch_result (option T)))
  : fetch_result (option T) :=
  match update_method with
  | None => Raises NotImplementedError
  | Some awaited => awaited
  end.

(** The block every recovered clause shares:
    [if self.last_update_success: if log_failures: logger.error(...);
     self.last_update_success = False]. *)
Definition first_failure (log_failures : bool) (msg : string) : M unit :=
  c <- get ;;
  when (last_update_success c)
    (when log_failures (emit (Log error msg)) ;;
     modify (set_last_update_success false)).

Definition reason_is (err : exception) (s : string) : bool :=
  match err with
  | URLError reason => String.eqb reason s
  | _ => false
  end.

(** The except clauses of [_async_refresh], entered through the first one
    that matches [err]. *)
Definition except_ (err : exception)
    (log_failures raise_on_auth_failed raise_on_entry_error : bool) : M unit :=
  match matching_clause err with
  | ExceptTimeout =>
      modify (set_last_exception (Some err)) ;;
      first_failure log_failures "Timeout fetching %s data"
  | ExceptClientError =>
      modify (set_last_exception (Some err)) ;;
      first_failure log_failures "Error requesting %s data: %s"
  | ExceptURLError =>
      modify (set_last_exception (Some err)) ;;
      first_failure log_failures
        (if reason_is err "timed out"
         then "Timeout fetching %s data"
         else "Error requesting %s data: %s")
  | ExceptUpdateFailed =>
      modify (set_last_exception (Some err)) ;;
      first_failure log_failures "Error fetching %s data: %s"
  | ExceptConfigEntryError =>
      modify (set_last_exception (Some err)) ;;
      first_failure log_failures
        "Config entry setup failed while fetching %s data: %s" ;;
      when raise_on_entry_error (raise err)
  | ExceptConfigEntryAuthFailed =>
      (* auth_failed = True, see [_async_refresh] *)
      modify (set_last_exception (Some err)) ;;
      first_failure log_failures
        "Authentication failed while fetching %s data: %s" ;;
      when raise_on_auth_failed (raise err) ;;
      c <- get ;;
      when (bool_decide (is_Some (config_entry c))) (emit StartReauth)
  | ExceptNotImplementedError =>
      modify (set_last_exception (Some err)) ;;
      raise err
  | ExceptException =>
      modify (set_last_exception (Some err)) ;;
      modify (set_last_update_success false) ;;
      emit (Log exception_ "Unexpected error fetching %s data: %s")
  end.

(** The else clause of the try statement. *)
Definition else_ : M unit :=
  c <- get ;;
  when (negb (last_update_success c))
    (modify (set_last_update_success true) ;;
     emit (Log info "Fetching %s data recovered")).

(** The local [auth_failed]: set on entry of the ConfigEntryAuthFailed
    clause, before anything there can raise, and read in the finally block. *)
Definition auth_failed_of (fetched : fetch_result (option T)) : bool :=
  match fetched with
  | Raises err =>
      match matching_clause err with
      | ExceptConfigEntryAuthFailed => true
      | _ => false
      end
  | Returns _ => false
  end.

Definition _async_refresh (update_method : option (fetch_result (option T)))
    (log_failures raise_on_auth_failed scheduled raise_on_entry_error : bool)
  : M unit :=
  _async_unsub_refresh ;;
  Debouncer_async_cancel ;;
  c <- get ;;
  if _shutdown_requested c || scheduled && is_stopping (hass c) then ret tt
  else
    let log_timing := logger_debug c in
    let previous_update_success := last_update_success c in
    let previous_data := data c in
    let fetched := _async_update_data update_method in
    let auth_failed := auth_failed_of fetched in
    try_finally
      (emit AwaitUpdate ;;
       match fetched with
       | Returns value => modify (set_data value) ;; else_
       | Raises err =>
           except_ err log_failures raise_on_auth_failed raise_on_entry_error
       end)
      (when log_timing
         (emit (Log debug
                  "Finished fetching %s data in %.3f seconds (success: %s)")) ;;
       c <- get ;;
       when (negb auth_failed && dict_nonempty (_listeners c)
             && negb (is_stopping (hass c)))
         _schedule_refresh) ;;
    c <- get ;;
    if negb (last_update_success c) && negb previous_update_success then ret tt
    else
      when (always_update c
            || negb (Bool.eqb (last_update_success c) previous_update_success)
            || bool_decide (previous_data <> data c))
        async_update_listeners.

Definition _handle_refresh_interval
    (update_method : option (fetch_result (option T))) : M unit :=
  modify (set_unsub_refresh None) ;;
  _async_refresh update_method true false true false.

Definition async_refresh (update_method : option (fetch_result (option T)))
  : M unit :=
  _async_refresh update_method true false false false.

(** The debouncer's [function] is [self.async_refresh]. *)
Definition async_request_refresh
    (update_method : option (fetch_result (option T))) : M unit :=
  Debouncer_async_call (async_refresh update_method).

Definition async_config_entry_first_refresh
    (update_method : option (fetch_result (option T))) : M unit :=
  _async_refresh update_method false true false true ;;
  c <- get ;;
  if last_update_success c then ret tt
  else raise (ConfigEntryNotReady (last_exception c)).

Definition async_set_update_error (err : exception) : M unit :=
  modify (set_last_exception (Some err)) ;;
  c <- get ;;
  when (last_update_success c)
    (emit (Log error "Error requesting %s data: %s") ;;
     modify (set_last_update_success false) ;;
     async_update_listeners).

Definition async_set_updated_data (value : option T) : M unit :=
  _async_unsub_refresh ;;
  Debouncer_async_cancel ;;
  modify (set_data value) ;;
  modify (set_last_update_success true) ;;
  emit (Log debug "Manually updated %s data") ;;
  c <- get ;;
  when (dict_nonempty (_listeners c)) _schedule_refresh ;;
  async_update_listeners.

(** [CoordinatorEntity.available] *)
Definition available (coordinator : Coordinator) : bool :=
  last_update_success coordinator.

(** ** What a run did *)

Definition is_enter (m : method) (ev : event) : bool :=
  match ev, m with
  | Enter m_async_update_listeners, m_async_update_listeners => true
  | Enter m_schedule_refresh, m_schedule_refresh => true
  | _, _ => false
  end.

Definition is_await (ev : event) : bool :=
  match ev with AwaitUpdate => true | _ => false end.

Definition is_call_at (ev : event) : bool :=
  match ev with CallAt _ => true | _ => false end.

Definition is_log (how : log_method) (ev : event) : bool :=
  match ev, how with
  | Log error _, error => true
  | Log exception_ _, exception_ => true
  | Log info _, info => true
  | Log debug _, debug => true
  | _, _ => false
  end.

Fixpoint count_ev (p : event -> bool) (tr : list event) : nat :=
  match tr with
  | [] => O
  | ev :: rest => ((if p ev then 1 else 0) + count_ev p rest)%nat
  end.

(** How often the listeners were notified ([async_update_listeners] ran). *)
Definition notifications {A} (r : Run A) : nat :=
  count_ev (is_enter m_async_update_listeners) (trace r).

(** How often [_schedule_refresh] was invoked. *)
Definition arm_calls {A} (r : Run A) : nat :=
  count_ev (is_enter m_schedule_refresh) (trace r).

(** How often a timer was handed to the event loop. *)
Definition timers_armed {A} (r : Run A) : nat :=
  count_ev is_call_at (trace r).

(** How often the fetch was awaited. *)
Definition fetches {A} (r : Run A) : nat :=
  count_ev is_await (trace r).

(** The callbacks invoked, in order. *)
Fixpoint invoked (tr : list event) : list callback :=
  match tr with
  | [] => []
  | Invoke cb :: rest => cb :: invoked rest
  | _ :: rest => invoked rest
  end.


(** ** Triggers *)

(** What can happen to a coordinator: the calls of its collaborators, the
    timers of the event loop, and changes of the environment it reads. *)
Inductive op : Type :=
| OpAddListener (update_callback : callback) (context : option Ctx)
| OpRemoveListener (h : nat)
| OpUpdateListeners
| OpShutdown
| OpRegisterShutdown
| OpSetUpdateInterval (value : option Z)
| OpTimerFire (update_method : option (fetch_result (option T)))
| OpRefresh (update_method : option (fetch_result (option T)))
| OpRequestRefresh (update_method : option (fetch_result (option T)))
| OpCooldownExpiry (update_method : option (fetch_result (option T)))
| OpFirstRefresh (update_method : option (fetch_result (option T)))
| OpSetUpdateError (err : exception)
| OpSetUpdatedData (value : option T)
| OpEnvironment (h : HomeAssistant) (disable_polling : bool).

Definition exec (o : op) : M unit :=
  match o with
  | OpAddListener update_callback context =>
      _ <- async_add_listener update_callback context ;; ret tt
  | OpRemoveListener h => remove_listener h
  | OpUpdateListeners => async_update_listeners
  | OpShutdown => async_shutdown
  | OpRegisterShutdown => async_register_shutdown
  | OpSetUpdateInterval value => update_interval_setter value
  | OpTimerFire update_method => _handle_refresh_interval update_method
  | OpRefresh update_method => async_refresh update_method
  | OpRequestRefresh update_method => async_request_refresh update_method
  | OpCooldownExpiry update_method =>
      Debouncer_on_cooldown_expiry (async_refresh update_method)
  | OpFirstRefresh update_method =>
      async_config_entry_first_refresh update_method
  | OpSetUpdateError err => async_set_update_error err
  | OpSetUpdatedData value => async_set_updated_data value
  | OpEnvironment h disable_polling =>
      modify (fun c =>
                set_config_entry
                  (match config_entry c with
                   | Some _ =>
                       Some {| pref_disable_polling := disable_polling |}
                   | None => None
                   end)
                  (set_hass h c))
  end.

(** Triggers arrive one after the other. *)
Fixpoint exec_all (ops : list op) : M unit :=
  match ops with
  | [] => ret tt
  | o :: rest => job (exec o) ;; exec_all rest
  end.

(** The states a coordinator built by [__init__] can get into. *)
Definition reachable (c : Coordinator) : Prop :=
  exists hass logger_debug name update_interval request_refresh_debouncer
         always_update current_entry entropy ops,
    c = final (exec_all ops
                 (__init__ hass logger_debug name update_interval
                    request_refresh_debouncer always_update current_entry
                    entropy)).

(** Whether a trigger is a fetch that fails or a manual error injection. *)
Definition fetch_fails (update_method : option (fetch_result (option T)))
  : bool :=
  match _async_update_data update_method with
  | Raises _ => true
  | Returns _ => false
  end.

Definition is_failure (o : op) : bool :=
  match o with
  | OpTimerFire um | OpRefresh um | OpRequestRefresh um | OpCooldownExpiry um
  | OpFirstRefresh um => fetch_fails um
  | OpSetUpdateError _ => true
  | _ => false
  end.

(** Whether a trigger is a fetch that returns or a manual data injection. *)
Definition is_success (o : op) : bool :=
  match o with
  | OpTimerFire um | OpRefresh um | OpRequestRefresh um | OpCooldownExpiry um
  | OpFirstRefresh um => negb (fetch_fails um)
  | OpSetUpdatedData _ => true
  | _ => false
  end.

(** The triggers that call [_schedule_refresh] outside a refresh cycle. *)
Definition arms_directly (o : op) : bool :=
  match o with
  | OpAddListener _ _ | OpSetUpdatedData _ => true
  | _ => false
  end.

(** ** TimestampDataUpdateCoordinator *)

(** The subclass adds one attribute to the coordinator object; it is
    [None] until the first stamp. *)
Record TimestampDataUpdateCoordinator : Type := {
  as_coordinator : Coordinator;
  last_update_success_time : option Z
}.

(** The override of [_async_refresh]: the cycle of the base class, then a
    stamp with [utcnow()] if [last_update_success] is set.  An exception of
    the base cycle leaves before the stamp.  The result is the object, the
    trace and the outcome. *)
Definition Timestamp__async_refresh (utcnow : Z)
    (update_method : option (fetch_result (option T)))
    (log_failures raise_on_auth_failed scheduled raise_on_entry_error : bool)
    (self : TimestampDataUpdateCoordinator)
  : TimestampDataUpdateCoordinator * list event * result unit :=
  let r := _async_refresh update_method log_failures raise_on_auth_failed
             scheduled raise_on_entry_error (as_coordinator self) in
  match outcome r with
  | Raise e =>
      ({| as_coordinator := final r;
          last_update_success_time := last_update_success_time self |},
       trace r, Raise e)
  | Ok _ =>
      ({| as_coordinator := final r;
          last_update_success_time :=
            if last_update_success (final r) then Some utcnow
            else last_update_success_time self |},
       trace r, Ok tt)
  end.
(** ** Vocabulary of the statements and proofs *)

(** [inv P p m]: started in a state satisfying [P], the method [m] ends in
    one (returning or raising) and emits no event selected by [p]. *)
Definition inv {A} (P : Coordinator -> Prop) (p : event -> bool) (m : M A)
  : Prop :=
  forall c, P c -> P (final (m c)) /\ count_ev p (trace (m c)) = O.

(** [only q t]: every event of [t] is selected by [q]. *)
Definition only (q : event -> bool) (t : list event) : Prop :=
  forallb q t = true.

(** [wp m Q c]: the run of [m] from [c] ends in a state, with a trace and an
    outcome, that satisfy [Q]. *)
Definition wp {A} (m : M A)
    (Q : Coordinator -> list event -> result A -> Prop) (c : Coordinator)
  : Prop :=
  Q (final (m c)) (trace (m c)) (outcome (m c)).

(** The fields that neither arming nor notifying touches. *)
Definition core (c : Coordinator) :=
  (hass c, logger_debug c, name c, _update_interval c,
   _update_interval_seconds c, _shutdown_requested c, config_entry c,
   always_update c, data c, _microsecond c, next_handle c,
   _unsub_shutdown c, last_update_success c, last_exception c).

(** Events a listener callback can cause. *)
Definition is_callback_event (ev : event) : bool :=
  match ev with Invoke _ | CancelCallAt => true | _ => false end.

(** The one event [_async_unsub_refresh] can cause. *)
Definition is_cancel (ev : event) : bool :=
  match ev with CancelCallAt => true | _ => false end.

(** The instant [_schedule_refresh] computes. *)
Definition next_refresh (c : Coordinator) (update_interval_seconds : Z) : Z :=
  int (loop_time (hass c)) + _microsecond c + update_interval_seconds.

(** Whether [_schedule_refresh] hands a timer to the loop, and which. *)
Definition schedules (c : Coordinator) : option Z :=
  match _update_interval_seconds c with
  | None => None
  | Some update_interval_seconds =>
      if polling_disabled c then None
      else Some (next_refresh c update_interval_seconds)
  end.

(** Events [_schedule_refresh] can cause. *)
Definition is_schedule_event (ev : event) : bool :=
  match ev with
  | CancelCallAt | CallAt _ | Enter m_schedule_refresh => true
  | _ => false
  end.

(** What the try statement leaves in [last_update_success], [data] and
    [last_exception], from their values before and what the fetch did. *)
Definition settled_success (previous : bool)
    (fetched : fetch_result (option T)) : bool :=
  match fetched with
  | Returns _ => true
  | Raises err =>
      match matching_clause err with
      | ExceptNotImplementedError => previous
      | _ => false
      end
  end.

Definition settled_data (previous : option T)
    (fetched : fetch_result (option T)) : option T :=
  match fetched with
  | Returns value => value
  | Raises _ => previous
  end.

Definition settled_exception (previous : option exception)
    (fetched : fetch_result (option T)) : option exception :=
  match fetched with
  | Returns _ => previous
  | Raises err => Some err
  end.

(** The exception that leaves the try statement, if any. *)
Definition propagated (fetched : fetch_result (option T))
    (raise_on_auth_failed raise_on_entry_error : bool) : option exception :=
  match fetched with
  | Returns _ => None
  | Raises err =>
      match matching_clause err with
      | ExceptNotImplementedError => Some err
      | ExceptConfigEntryError =>
          if raise_on_entry_error then Some err else None
      | ExceptConfigEntryAuthFailed =>
          if raise_on_auth_failed then Some err else None
      | _ => None
      end
  end.

(** The state after the try statement. *)
Definition settle (fetched : fetch_result (option T)) (c : Coordinator)
  : Coordinator :=
  set_last_update_success (settled_success (last_update_success c) fetched)
    (set_last_exception (settled_exception (last_exception c) fetched)
       (set_data (settled_data (data c) fetched) c)).

(** Events the try statement can cause. *)
Definition is_try_event (ev : event) : bool :=
  match ev with AwaitUpdate | Log _ _ | StartReauth => true | _ => false end.

(** How a block ends, given the exception that leaves it. *)
Definition raised_or_ok (e : option exception) : result unit :=
  match e with Some err => Raise err | None => Ok tt end.

(** Events the finally block can cause. *)
Definition is_finally_event (ev : event) : bool :=
  match ev with
  | Log debug _ | CancelCallAt | CallAt _ | Enter m_schedule_refresh => true
  | _ => false
  end.

(** The condition of the finally block. *)
Definition rearms (auth_failed : bool) (c : Coordinator) : bool :=
  negb auth_failed && dict_nonempty (_listeners c)
  && negb (is_stopping (hass c)).

(** The state in which a cycle starts: timer and trailing debounce
    cancelled. *)
Definition entered (c : Coordinator) : Coordinator :=
  set_debounced_refresh (set_pending false (_debounced_refresh c))
    (set_unsub_refresh None c).

(** The guard at the top of [_async_refresh]. *)
Definition aborts (scheduled : bool) (c : Coordinator) : bool :=
  _shutdown_requested c || scheduled && is_stopping (hass c).

(** The notification decision at the end of [_async_refresh]. *)
Definition should_notify (always previous_success success : bool)
    (previous_data new_data : option T) : bool :=
  if negb success && negb previous_success then false
  else always || negb (Bool.eqb success previous_success)
       || bool_decide (previous_data <> new_data).

(** What is known of a cycle that reached the fetch: [c] is the state it
    started in, [c'], [t] and [o] the state, trace and outcome it ended
    with. *)
Record cycle_facts (c : Coordinator) (fetched : fetch_result (option T))
    (raise_on_auth_failed raise_on_entry_error : bool)
    (c' : Coordinator) (t : list event) (o : result unit) : Prop := {
  cf_core : core c' = core (settle fetched c);
  cf_fetches : count_ev is_await t = 1%nat;
  cf_arm_calls :
    count_ev (is_enter m_schedule_refresh) t
    = (if rearms (auth_failed_of fetched) c then 1 else 0)%nat;
  cf_timers :
    count_ev is_call_at t
    = (if rearms (auth_failed_of fetched) c
       then match schedules c with Some _ => 1 | None => 0 end
       else 0)%nat;
  cf_log_error :
    last_update_success c = false -> count_ev (is_log error) t = O;
  cf_notifications :
    count_ev (is_enter m_async_update_listeners) t
    = match propagated fetched raise_on_auth_failed raise_on_entry_error with
      | Some _ => O
      | None =>
          if should_notify (always_update c) (last_update_success c)
               (settled_success (last_update_success c) fetched)
               (data c) (settled_data (data c) fetched)
          then 1%nat else O
      end;
  cf_propagated :
    forall e,
      propagated fetched raise_on_auth_failed raise_on_entry_error = Some e ->
      o = Raise e /\ _listeners c' = _listeners c /\ invoked t = [];
  cf_silent :
    propagated fetched raise_on_auth_failed raise_on_entry_error = None ->
    count_ev (is_enter m_async_update_listeners) t = O ->
    o = Ok tt /\ _listeners c' = _listeners c /\ invoked t = []
}.

(** The side effects of the transition into failure: the listeners are
    notified, and the failure is logged through [logger.error]. *)
Definition is_transition_effect (ev : event) : bool :=
  is_enter m_async_update_listeners ev || is_log error ev.

(** A cycle that reached the fetch and returned to its caller. *)
Definition completed (r : Run unit) : Prop :=
  fetches r = 1%nat /\ outcome r = Ok tt.

(** The remove handles the callbacks of a snapshot invoke, in order. *)
Definition unsubscribed (snapshot : list callback) : list nat :=
  concat (map cb_unsubscribes snapshot).

(** Every remove handle is invoked at most once, and only handles of
    registered listeners are. *)
Definition one_shot (c : Coordinator) : Prop :=
  let snapshot := map fst (dict_values (_listeners c)) in
  List.NoDup (unsubscribed snapshot)
  /\ forall h, In h (unsubscribed snapshot) -> In h (dict_keys (_listeners c)).

(** Remove handles are closures created one after the other: those in the
    dict are distinct and older than the next one. *)
Definition handles_fresh (c : Coordinator) : Prop :=
  List.NoDup (dict_keys (_listeners c))
  /\ forall k, In k (dict_keys (_listeners c)) -> (k < next_handle c)%nat.

(** The stop listener was unsubscribed. *)
Definition is_unsub_shutdown (ev : event) : bool :=
  match ev with UnsubShutdown => true | _ => false end.

(** The message of the RuntimeError of [async_register_shutdown]. *)
Definition stop_message : string :=
  "This should only be used outside of config entries.".

(** The calls of the logger above debug level, in order. *)
Fixpoint logged (t : list event) : list (log_method * string) :=
  match t with
  | [] => []
  | Log debug _ :: rest => logged rest
  | Log how msg :: rest => (how, msg) :: logged rest
  | _ :: rest => logged rest
  end.

(** The message of the clause that recovers [err]. *)
Definition failure_message (err : exception) : string :=
  match matching_clause err with
  | ExceptTimeout => "Timeout fetching %s data"
  | ExceptClientError => "Error requesting %s data: %s"
  | ExceptURLError =>
      if reason_is err "timed out"
      then "Timeout fetching %s data"
      else "Error requesting %s data: %s"
  | ExceptUpdateFailed => "Error fetching %s data: %s"
  | ExceptConfigEntryError =>
      "Config entry setup failed while fetching %s data: %s"
  | ExceptConfigEntryAuthFailed =>
      "Authentication failed while fetching %s data: %s"
  | ExceptNotImplementedError | ExceptException =>
      "Unexpected error fetching %s data: %s"
  end.

(** What a cycle that reached the fetch logs above debug level. *)
Definition cycle_log (previous_success log_failures : bool)
    (fetched : fetch_result (option T)) : list (log_method * string) :=
  match fetched with
  | Returns _ =>
      if previous_success then []
      else [(info, "Fetching %s data recovered")]
  | Raises err =>
      match matching_clause err with
      | ExceptNotImplementedError => []
      | ExceptException => [(exception_, failure_message err)]
      | _ =>
          if previous_success && log_failures
          then [(error, failure_message err)]
          else []
      end
  end.

(** A cleared success flag comes with the error that cleared it. *)
Definition failure_has_cause (c : Coordinator) : Prop :=
  last_update_success c = false -> last_exception c <> None.

(** A timer is armed only while a listener is registered. *)
Definition timer_needs_listener (c : Coordinator) : Prop :=
  dict_nonempty (_listeners c) = false -> _unsub_refresh c = None.

(** Whether the coordinator holds the handle of a timer. *)
Definition armed (c : Coordinator) : bool :=
  match _unsub_refresh c with Some _ => true | None => false end.

(** Replays the calls made to the event loop, from whether a timer was
    outstanding: [call_at] needs none outstanding, [cancel] needs one.
    [None] when a call breaks that. *)
Fixpoint timer_after (outstanding : bool) (t : list event) : option bool :=
  match t with
  | [] => Some outstanding
  | CallAt _ :: rest =>
      if outstanding then None else timer_after true rest
  | CancelCallAt :: rest =>
      if outstanding then timer_after false rest else None
  | _ :: rest => timer_after outstanding rest
  end.

(** [timer_ok m]: the run of [m] from any state keeps to that discipline
    and ends holding a handle exactly when a timer is outstanding. *)
Definition timer_ok {A} (m : M A) : Prop :=
  forall c, timer_after (armed c) (trace (m c)) = Some (armed (final (m c))).

Definition is_timer_event (ev : event) : bool :=
  match ev with CallAt _ | CancelCallAt => true | _ => false end.
(** ** Reasoning about runs *)

Lemma count_ev_app (p : event -> bool) (tr1 tr2 : list event) :
  count_ev p (tr1 ++ tr2) = (count_ev p tr1 + count_ev p tr2)%nat.
Proof.
  induction tr1 as [|ev tr1 IH]; simpl; [reflexivity|].
  rewrite IH. lia.
Qed.

Lemma inv_ret {A} P p (a : A) : inv P p (ret a).
Proof. intros c HP. split; [exact HP | reflexivity]. Qed.

Lemma inv_raise {A} P p e : inv P p (@raise A e).
Proof. intros c HP. split; [exact HP | reflexivity]. Qed.

Lemma inv_emit P p ev : p ev = false -> inv P p (emit ev).
Proof. intros Hp c HP. split; [exact HP | simpl; now rewrite Hp]. Qed.

Lemma inv_modify (P : Coordinator -> Prop) p f :
  (forall c, P c -> P (f c)) -> inv P p (modify f).
Proof. intros Hf c HP. split; [apply Hf, HP | reflexivity]. Qed.

Lemma inv_bind {A B} P p (m : M A) (k : A -> M B) :
  inv P p m -> (forall a, inv P p (k a)) -> inv P p (bind m k).
Proof.
  intros Hm Hk c HP. destruct (Hm c HP) as [HP1 Ht1].
  unfold bind. destruct (outcome (m c)) as [a|e]; simpl.
  - destruct (Hk a _ HP1) as [HP2 Ht2]. split; [exact HP2|].
    rewrite count_ev_app, Ht1, Ht2. reflexivity.
  - split; assumption.
Qed.

(** Reading the object: what was read satisfies [P] too. *)
Lemma inv_get {B} (P : Coordinator -> Prop) p (k : Coordinator -> M B) :
  (forall c0, P c0 -> inv P p (k c0)) -> inv P p (bind get k).
Proof.
  intros Hk c HP. unfold bind, get; simpl.
  destruct (Hk c HP c HP) as [HP2 Ht2]. split; assumption.
Qed.

Lemma inv_when P p (b : bool) (m : M unit) :
  (b = true -> inv P p m) -> inv P p (when b m).
Proof. destruct b; simpl; intros Hm; [apply Hm; reflexivity | apply inv_ret]. Qed.

Lemma inv_try_finally {A} P p (m : M A) (f : M unit) :
  inv P p m -> inv P p f -> inv P p (try_finally m f).
Proof.
  intros Hm Hf c HP. destruct (Hm c HP) as [HP1 Ht1].
  destruct (Hf _ HP1) as [HP2 Ht2]. unfold try_finally; simpl.
  split; [exact HP2|]. rewrite count_ev_app, Ht1, Ht2. reflexivity.
Qed.

Lemma inv_for_each {A} P p (xs : list A) (body : A -> M unit) :
  (forall x, inv P p (body x)) -> inv P p (for_each xs body).
Proof.
  intros Hb. induction xs as [|x xs IH]; simpl.
  - apply inv_ret.
  - apply inv_bind; [apply Hb | intros _; exact IH].
Qed.

Lemma inv_job {A} P p (m : M A) : inv P p m -> inv P p (job m).
Proof. intros Hm c HP. exact (Hm c HP). Qed.

Lemma inv_if {A} P p (b : bool) (m1 m2 : M A) :
  (b = true -> inv P p m1) -> (b = false -> inv P p m2) ->
  inv P p (if b then m1 else m2).
Proof. destruct b; intros H1 H2; [apply H1 | apply H2]; reflexivity. Qed.

(** Syntax-directed use of the rules above. *)
Ltac inv_step :=
  match goal with
  | |- inv _ _ (bind get _) => apply inv_get; intros ? ?
  | |- inv _ _ (bind _ _) => apply inv_bind; [|intros ?]
  | |- inv _ _ (ret _) => apply inv_ret
  | |- inv _ _ (raise _) => apply inv_raise
  | |- inv _ _ (emit _) => apply inv_emit; reflexivity
  | |- inv _ _ (modify _) => apply inv_modify; intros ? ?; simpl
  | |- inv _ _ (modify_debouncer _) => apply inv_modify; intros ? ?; simpl
  | |- inv _ _ (when _ _) => apply inv_when; intros ?
  | |- inv _ _ (try_finally _ _) => apply inv_try_finally
  | |- inv _ _ (for_each _ _) => apply inv_for_each; intros ?
  | |- inv _ _ (job _) => apply inv_job
  | |- inv _ _ (if ?b then _ else _) => apply inv_if; intros ?
  | |- inv _ _ (match ?x with
                | ExceptTimeout => _ | ExceptClientError => _
                | ExceptURLError => _ | ExceptUpdateFailed => _
                | ExceptConfigEntryError => _
                | ExceptConfigEntryAuthFailed => _
                | ExceptNotImplementedError => _ | ExceptException => _
                end) => destruct x eqn:?
  | |- inv _ _ (match ?x with Some _ => _ | None => _ end) =>
      destruct x eqn:?
  | |- inv _ _ (match ?x with Returns _ => _ | Raises _ => _ end) =>
      destruct x eqn:?
  | |- inv _ _ (match ?x with (_, _) => _ end) => destruct x eqn:?
  end.

Ltac unfold_method :=
  progress unfold exec, _async_refresh, except_, else_, first_failure,
    _handle_refresh_interval, async_refresh, async_request_refresh,
    async_config_entry_first_refresh, async_set_update_error,
    async_set_updated_data, async_add_listener, async_update_listeners,
    async_shutdown, async_register_shutdown, update_interval_setter, call,
    remove_listener, _schedule_refresh, _unschedule_refresh,
    _async_unsub_refresh, _async_unsub_shutdown, Debouncer_async_call,
    Debouncer_on_cooldown_expiry, Debouncer_async_cancel,
    Debouncer_async_shutdown.

Ltac inv_auto := repeat (first [inv_step | unfold_method]).

Lemma only_nil q : only q [].
Proof. reflexivity. Qed.

Lemma only_cons q ev t : q ev = true -> only q t -> only q (ev :: t).
Proof. unfold only; simpl. intros -> ->. reflexivity. Qed.

Lemma only_app q t1 t2 : only q t1 -> only q t2 -> only q (t1 ++ t2).
Proof. unfold only. rewrite forallb_app. intros -> ->. reflexivity. Qed.

Lemma only_count q p t :
  (forall ev, q ev = true -> p ev = false) -> only q t -> count_ev p t = O.
Proof.
  intros Hqp. unfold only. induction t as [|ev t IH]; simpl; [reflexivity|].
  intros Hall. apply andb_prop in Hall as [Hev Ht].
  rewrite (Hqp ev Hev), (IH Ht). reflexivity.
Qed.

Lemma only_invoked q t :
  (forall cb, q (Invoke cb) = false) -> only q t -> invoked t = [].
Proof.
  intros Hq. unfold only. induction t as [|ev t IH]; simpl; [reflexivity|].
  intros Hall. apply andb_prop in Hall as [Hev Ht].
  destruct ev; try (apply IH, Ht). rewrite Hq in Hev. discriminate.
Qed.

Lemma invoked_app t1 t2 : invoked (t1 ++ t2) = invoked t1 ++ invoked t2.
Proof.
  induction t1 as [|ev t1 IH]; simpl; [reflexivity|].
  destruct ev; simpl; rewrite ?IH; reflexivity.
Qed.

Lemma wp_ret {A} (a : A) Q c : Q c [] (Ok a) -> wp (ret a) Q c.
Proof. exact (fun H => H). Qed.

Lemma wp_raise {A} e (Q : _ -> _ -> result A -> Prop) c :
  Q c [] (Raise e) -> wp (raise e) Q c.
Proof. exact (fun H => H). Qed.

Lemma wp_get Q c : Q c [] (Ok c) -> wp get Q c.
Proof. exact (fun H => H). Qed.

Lemma wp_modify f Q c : Q (f c) [] (Ok tt) -> wp (modify f) Q c.
Proof. exact (fun H => H). Qed.

Lemma wp_emit ev Q c : Q c [ev] (Ok tt) -> wp (emit ev) Q c.
Proof. exact (fun H => H). Qed.

Lemma wp_bind {A B} (m : M A) (k : A -> M B) Q c :
  wp m (fun c1 t1 o1 =>
          match o1 with
          | Ok a => wp (k a) (fun c2 t2 o2 => Q c2 (t1 ++ t2) o2) c1
          | Raise e => Q c1 t1 (Raise e)
          end) c ->
  wp (bind m k) Q c.
Proof.
  unfold wp, bind. destruct (outcome (m c)); simpl; exact (fun H => H).
Qed.

Lemma wp_try_finally {A} (m : M A) (f : M unit) Q c :
  wp m (fun c1 t1 o1 =>
          wp f (fun c2 t2 o2 =>
                  Q c2 (t1 ++ t2)
                    match o2 with Ok _ => o1 | Raise e => Raise e end) c1) c ->
  wp (try_finally m f) Q c.
Proof. exact (fun H => H). Qed.

Lemma wp_when (b : bool) (m : M unit) Q c :
  (if b then wp m Q c else Q c [] (Ok tt)) -> wp (when b m) Q c.
Proof. destruct b; exact (fun H => H). Qed.

(** One step of symbolic execution. *)
Ltac wp_step :=
  lazymatch goal with
  | |- wp (bind _ _) _ _ => apply wp_bind
  | |- wp (ret _) _ _ => apply wp_ret; cbv beta iota
  | |- wp (raise _) _ _ => apply wp_raise; cbv beta iota
  | |- wp get _ _ => apply wp_get; cbv beta iota
  | |- wp (modify _) _ _ => apply wp_modify; cbv beta iota
  | |- wp (modify_debouncer _) _ _ => apply wp_modify; cbv beta iota
  | |- wp (emit _) _ _ => apply wp_emit; cbv beta iota
  | |- wp (try_finally _ _) _ _ => apply wp_try_finally
  | |- wp (when _ _) _ _ => apply wp_when; cbv iota
  end.

(** Projections of updated objects. *)
Ltac fields :=
  cbn [hass logger_debug name _update_interval _update_interval_seconds
       _shutdown_requested config_entry always_update data _microsecond
       _listeners next_handle _unsub_refresh _unsub_shutdown
       last_update_success last_exception _debounced_refresh
       set_hass set_update_interval_fields set_shutdown_requested
       set_config_entry set_data set_listeners set_unsub_refresh
       set_unsub_shutdown set_last_update_success set_last_exception
       set_debounced_refresh cooldown immediate pending window inert
       set_pending set_window set_inert] in *.

Lemma set_unsub_refresh_same c :
  set_unsub_refresh (_unsub_refresh c) c = c.
Proof. destruct c; reflexivity. Qed.

Lemma wp__async_unsub_refresh Q c :
  (forall t, only is_cancel t -> Q (set_unsub_refresh None c) t (Ok tt)) ->
  wp _async_unsub_refresh Q c.
Proof.
  intros HQ. unfold _async_unsub_refresh. do 2 wp_step.
  destruct (_unsub_refresh c) eqn:Hu.
  - repeat wp_step. apply HQ. reflexivity.
  - wp_step. rewrite <- (set_unsub_refresh_same c), Hu. apply HQ. reflexivity.
Qed.

Lemma wp__unschedule_refresh Q c :
  (forall t, only is_cancel t ->
     Q (set_debounced_refresh (set_pending false (_debounced_refresh c))
          (set_unsub_refresh None c)) t (Ok tt)) ->
  wp _unschedule_refresh Q c.
Proof.
  intros HQ. unfold _unschedule_refresh. wp_step.
  apply wp__async_unsub_refresh. intros t Ht.
  unfold Debouncer_async_cancel. wp_step. fields.
  apply HQ. apply only_app; [exact Ht | reflexivity].
Qed.

Ltac core_solve := unfold core in *; fields; congruence.

Lemma inv_remove_listener x h :
  inv (fun c => core c = x) (fun ev => negb (is_cancel ev))
    (remove_listener h).
Proof. inv_auto; core_solve. Qed.

Lemma inv_call x cb :
  inv (fun c => core c = x) (fun ev => negb (is_callback_event ev)) (call cb).
Proof. inv_auto; core_solve. Qed.

Lemma count_zero_only p t :
  count_ev (fun ev => negb (p ev)) t = O -> only p t.
Proof.
  unfold only. induction t as [|ev t IH]; simpl; [reflexivity|].
  destruct (p ev); simpl; [exact IH | discriminate].
Qed.

Lemma wp_async_update_listeners Q c :
  (forall c' t o, core c' = core c -> only is_callback_event t ->
     Q c' (Enter m_async_update_listeners :: t) o) ->
  wp async_update_listeners Q c.
Proof.
  intros HQ. unfold async_update_listeners. do 2 wp_step. do 2 wp_step.
  unfold wp.
  destruct (inv_for_each (fun c' => core c' = core c)
              (fun ev => negb (is_callback_event ev))
              (dict_values (_listeners c)) (fun item => call (fst item))
              (fun item => inv_call _ _) c eq_refl) as [Hc Ht].
  apply (HQ _ _ _ Hc). apply count_zero_only, Ht.
Qed.

(** ** Arming *)

Lemma wp__schedule_refresh Q c :
  (forall t, only is_schedule_event t ->
     count_ev (is_enter m_schedule_refresh) t = 1%nat ->
     count_ev is_call_at t =
       match schedules c with Some _ => 1%nat | None => O end ->
     Q (match schedules c with
        | Some at_ => set_unsub_refresh (Some at_) c
        | None => c
        end) t (Ok tt)) ->
  wp _schedule_refresh Q c.
Proof.
  intros HQ. unfold _schedule_refresh, schedules in *. do 4 wp_step.
  destruct (_update_interval_seconds c) as [i|].
  - destruct (polling_disabled c) eqn:Hp.
    + wp_step. apply HQ; reflexivity.
    + wp_step. apply wp__async_unsub_refresh. intros t Ht.
      do 2 wp_step. do 2 wp_step. wp_step. fields.
      change (set_unsub_refresh (Some (next_refresh c i))
                (set_unsub_refresh None c))
        with (set_unsub_refresh (Some (next_refresh c i)) c).
      assert (Hz : forall p, p CancelCallAt = false -> count_ev p t = O).
      { intros p Hpc. apply (only_count is_cancel); [|exact Ht].
        intros []; simpl; congruence. }
      apply HQ.
      * apply only_cons; [reflexivity|]. rewrite app_nil_l.
        apply only_app; [|reflexivity].
        unfold only in *. rewrite forallb_forall in *. intros ev Hev.
        specialize (Ht ev Hev). destruct ev; simpl in *; congruence.
      * simpl. rewrite !count_ev_app, Hz by reflexivity. reflexivity.
      * simpl. rewrite !count_ev_app, Hz by reflexivity. reflexivity.
  - wp_step. apply HQ; reflexivity.
Qed.

(** ** The state update rules of a cycle *)

Lemma wp_try_body fetched lf roa roe Q c :
  (forall t, only is_try_event t ->
     count_ev is_await t = 1%nat ->
     (last_update_success c = false -> count_ev (is_log error) t = O) ->
     Q (settle fetched c) t (raised_or_ok (propagated fetched roa roe))) ->
  wp (emit AwaitUpdate ;;
      match fetched with
      | Returns value => modify (set_data value) ;; else_
      | Raises err => except_ err lf roa roe
      end) Q c.
Proof.
  intros HQ. unfold settle, propagated in HQ.
  destruct c as [hs dbg nm ui uis sd ce au d ms ls nh ur us lus le db].
  fields. do 2 wp_step.
  destruct fetched as [value|err].
  - unfold else_. do 2 wp_step. do 2 wp_step. fields.
    destruct lus; repeat wp_step; cbn [settled_success settled_data
      settled_exception raised_or_ok] in HQ; apply HQ;
      solve [reflexivity | discriminate].
  - unfold except_, first_failure.
    destruct err; cbn [matching_clause isinstance settled_success
      settled_data settled_exception raised_or_ok reason_is] in *;
      repeat (first [wp_step | progress fields]);
      destruct lus; repeat (first [wp_step | progress fields]);
      try (destruct lf; repeat (first [wp_step | progress fields]));
      try (destruct roa; repeat (first [wp_step | progress fields]));
      try (destruct roe; repeat (first [wp_step | progress fields]));
      try (destruct ce; cbn [bool_decide decide_rel is_Some_dec];
           repeat (first [wp_step | progress fields]));
      try (apply HQ; solve [reflexivity | discriminate]).
Qed.

Lemma wp_finally_block (log_timing auth_failed : bool) Q c :
  (forall c' t, only is_finally_event t ->
     count_ev (is_enter m_schedule_refresh) t
     = (if rearms auth_failed c then 1 else 0)%nat ->
     count_ev is_call_at t
     = (if rearms auth_failed c
        then match schedules c with Some _ => 1 | None => 0 end
        else 0)%nat ->
     core c' = core c -> _listeners c' = _listeners c ->
     Q c' t (Ok tt)) ->
  wp (when log_timing
        (emit (Log debug
                 "Finished fetching %s data in %.3f seconds (success: %s)")) ;;
      c <- get ;;
      when (negb auth_failed && dict_nonempty (_listeners c)
            && negb (is_stopping (hass c)))
        _schedule_refresh) Q c.
Proof.
  intros HQ. wp_step.
  assert (Hrest : forall t0, only is_finally_event t0 ->
            count_ev (is_enter m_schedule_refresh) t0 = O ->
            count_ev is_call_at t0 = O ->
            wp (c0 <- get ;;
                when (negb auth_failed && dict_nonempty (_listeners c0)
                      && negb (is_stopping (hass c0))) _schedule_refresh)
              (fun c2 t2 o2 => Q c2 (t0 ++ t2) o2) c).
  { intros t0 Ht0 Hs0 Hc0. do 2 wp_step. wp_step.
    fold (rearms auth_failed c). destruct (rearms auth_failed c) eqn:Hr.
    - apply wp__schedule_refresh. intros t Ht Hs Hc.
      apply HQ.
      + apply only_app; [exact Ht0|]. cbn [app].
        unfold only in *. rewrite forallb_forall in *. intros ev Hev.
        specialize (Ht ev Hev). destruct ev as [| [] | | | | | | |];
          simpl in *; congruence.
      + rewrite !count_ev_app, Hs0, Hs. reflexivity.
      + rewrite !count_ev_app, Hc0, Hc. reflexivity.
      + destruct (schedules c); [core_solve | reflexivity].
      + destruct (schedules c); reflexivity.
    - apply HQ; rewrite ?app_nil_r, ?Hr; auto. }
  destruct log_timing.
  - apply wp_when; cbv iota. wp_step. apply Hrest; reflexivity.
  - apply wp_when; cbv iota. apply Hrest; reflexivity.
Qed.

(** ** One refresh cycle *)

Ltac only_side :=
  let ev := fresh "ev" in
  intros ev; destruct ev as [[] ?|[]| | | | | | |]; simpl; congruence.

(** Counts that vanish because of what a piece of the trace consists of. *)
Ltac counts :=
  rewrite ?count_ev_app; cbn [count_ev];
  repeat match goal with
    | H : only ?q ?t |- context [count_ev ?p ?t] =>
        rewrite (only_count q p t ltac:(only_side) H)
    end;
  rewrite ?Nat.add_0_r; cbn [Nat.add].

Ltac invokes :=
  rewrite ?invoked_app; cbn [invoked];
  repeat match goal with
    | H : only ?q ?t |- context [invoked ?t] =>
        rewrite (only_invoked q t ltac:(intros; reflexivity) H)
    end;
  cbn [app].

Lemma wp__async_refresh_aborted update_method lf roa sch roe Q c :
  aborts sch c = true ->
  (forall t, only is_cancel t -> Q (entered c) t (Ok tt)) ->
  wp (_async_refresh update_method lf roa sch roe) Q c.
Proof.
  unfold aborts. intros Hg HQ. unfold _async_refresh. wp_step.
  apply wp__async_unsub_refresh. intros t0 Ht0.
  unfold Debouncer_async_cancel. do 2 wp_step. do 2 wp_step.
  fields. rewrite Hg. wp_step. rewrite !app_nil_r. apply HQ, Ht0.
Qed.

Lemma wp__async_refresh update_method lf roa sch roe Q c :
  aborts sch c = false ->
  (forall c' t o,
     cycle_facts c (_async_update_data update_method) roa roe c' t o ->
     Q c' t o) ->
  wp (_async_refresh update_method lf roa sch roe) Q c.
Proof.
  unfold aborts. intros Hg HQ. unfold _async_refresh. wp_step.
  apply wp__async_unsub_refresh. intros t0 Ht0.
  unfold Debouncer_async_cancel. do 2 wp_step. do 2 wp_step.
  fields. rewrite Hg. cbv iota zeta.
  set (fetched := _async_update_data update_method) in *.
  wp_step. wp_step. apply wp_try_body. intros t1 Ht1 Hf1 Hl1.
  apply wp_finally_block. intros c2 t2 Ht2 Hs2 Hc2 Hcore2 Hls2.
  fold (entered c) in *.
  change (last_update_success (entered c)) with (last_update_success c) in Hl1.
  change (rearms (auth_failed_of fetched) (settle fetched (entered c)))
    with (rearms (auth_failed_of fetched) c) in Hs2, Hc2.
  change (schedules (settle fetched (entered c))) with (schedules c) in Hc2.
  change (core (settle fetched (entered c))) with (core (settle fetched c))
    in Hcore2.
  change (_listeners (settle fetched (entered c))) with (_listeners c) in Hls2.
  assert (Hlus2 : last_update_success c2
                  = settled_success (last_update_success c) fetched)
    by (unfold core, settle in Hcore2; fields; congruence).
  assert (Hdata2 : data c2 = settled_data (data c) fetched)
    by (unfold core, settle in Hcore2; fields; congruence).
  assert (Halw2 : always_update c2 = always_update c)
    by (unfold core, settle in Hcore2; fields; congruence).
  destruct (propagated fetched roa roe) as [e|] eqn:Hp; cbn [raised_or_ok];
    cbv iota.
  - apply HQ. split; rewrite ?Hp; try discriminate.
    + exact Hcore2.
    + counts. lia.
    + counts. lia.
    + counts. lia.
    + intros Hprev. counts. apply Hl1, Hprev.
    + counts. reflexivity.
    + intros e' [= <-]. split; [reflexivity|]. split; [exact Hls2|].
      invokes. reflexivity.
  - do 2 wp_step. rewrite Hlus2, Hdata2, Halw2.
    assert (Hfacts : forall c3 t3 o3,
              core c3 = core c2 ->
              count_ev is_await t3 = O ->
              count_ev (is_enter m_schedule_refresh) t3 = O ->
              count_ev is_call_at t3 = O ->
              count_ev (is_log error) t3 = O ->
              count_ev (is_enter m_async_update_listeners) t3
              = (if should_notify (always_update c) (last_update_success c)
                      (settled_success (last_update_success c) fetched)
                      (data c) (settled_data (data c) fetched)
                 then 1%nat else O) ->
              (count_ev (is_enter m_async_update_listeners) t3 = O ->
               o3 = Ok tt /\ _listeners c3 = _listeners c2
               /\ invoked t3 = []) ->
              Q c3 (t0 ++ [] ++ [] ++ (t1 ++ t2) ++ t3) o3).
    { intros c3 t3 o3 Hcore3 Ha3 Hs3 Hc3 Hl3 Hn3 Hq3. apply HQ.
      split; rewrite ?Hp; try discriminate.
      - congruence.
      - counts. lia.
      - counts. rewrite Hs3, Hs2. lia.
      - counts. rewrite Hc3, Hc2. lia.
      - intros Hprev. counts. rewrite Hl3, (Hl1 Hprev). reflexivity.
      - counts. exact Hn3.
      - intros _ Hz. revert Hz. counts. intros Hz.
        destruct (Hq3 Hz) as (-> & Hl & Hi). split; [reflexivity|].
        split; [congruence|]. invokes. rewrite Hi. reflexivity. }
    unfold should_notify in Hfacts.
    destruct (negb (settled_success (last_update_success c) fetched)
              && negb (last_update_success c)).
    + wp_step. apply Hfacts; auto.
    + wp_step.
      destruct (always_update c
                || negb (Bool.eqb
                           (settled_success (last_update_success c) fetched)
                           (last_update_success c))
                || bool_decide (data c <> settled_data (data c) fetched)).
      * apply wp_async_update_listeners. intros c3 t3 o3 Hcore3 Ht3.
        apply Hfacts; try (cbn [count_ev is_await is_enter is_call_at is_log];
                           counts; reflexivity).
        -- exact Hcore3.
        -- cbn [count_ev is_enter]. discriminate.
      * apply Hfacts; auto.
Qed.

(** An invocation stopped by the guard does nothing but cancel the timer
    and the trailing debounce. *)
Lemma aborted_cycle (c : Coordinator)
    (update_method : option (fetch_result (option T)))
    (lf roa sch roe : bool) :
  aborts sch c = true ->
  let r := _async_refresh update_method lf roa sch roe c in
  final r = entered c /\ outcome r = Ok tt
  /\ fetches r = O /\ arm_calls r = O /\ notifications r = O.
Proof.
  intros Hg r. subst r. unfold fetches, arm_calls, notifications.
  apply (wp__async_refresh_aborted update_method lf roa sch roe
           (fun c' t o =>
              c' = entered c /\ o = Ok tt
              /\ count_ev is_await t = O
              /\ count_ev (is_enter m_schedule_refresh) t = O
              /\ count_ev (is_enter m_async_update_listeners) t = O) c Hg).
  intros t Ht. repeat split; counts; reflexivity.
Qed.

(** ** Invariants of the triggers *)

Ltac fields_solve :=
  fields; try solve [assumption | reflexivity | congruence | tauto].

(** The jitter offset is never reassigned. *)
Lemma inv_microsecond x (o : op) :
  inv (fun c => _microsecond c = x) (fun _ => false) (exec o).
Proof.
  destruct o; inv_auto; fields_solve.
Qed.

(** A guard read from a state that contradicts what is known of it. *)
Ltac absurd_guard :=
  exfalso;
  repeat match goal with
    | H : ?f ?c = _, G : context [?f ?c] |- _ =>
        lazymatch type of G with
        | f c = _ => fail
        | _ => rewrite H in G
        end
    | H : _ /\ _ |- _ => destruct H
    end;
  simpl in *; congruence.

(** After [shutdown()] nothing awaits the fetch. *)
Lemma inv_shutdown_no_fetch (o : op) :
  inv (fun c => _shutdown_requested c = true) is_await (exec o).
Proof.
  destruct o; inv_auto; fields_solve; absurd_guard.
Qed.

(** After [shutdown()] a trigger that does not call [_schedule_refresh]
    itself leaves the timer unarmed. *)
Lemma inv_shutdown_no_timer (o : op) :
  arms_directly o = false ->
  inv (fun c => _shutdown_requested c = true /\ _unsub_refresh c = None)
    is_call_at (exec o).
Proof.
  destruct o; try discriminate; intros _; inv_auto; fields_solve;
    try absurd_guard.
Qed.

(** A trigger that is no failure leaves a success flag that is set. *)
Lemma inv_success_stays (o : op) :
  is_failure o = false ->
  inv (fun c => last_update_success c = true) (fun _ => false) (exec o).
Proof.
  destruct o; try discriminate; unfold is_failure, fetch_fails; intros Hf;
    inv_auto; fields_solve; try absurd_guard.
Qed.

(** A trigger that is no success leaves a success flag that is cleared. *)
Lemma inv_failure_stays (o : op) :
  is_success o = false ->
  inv (fun c => last_update_success c = false) (fun _ => false) (exec o).
Proof.
  destruct o; try discriminate; unfold is_success, fetch_fails; intros Hf;
    inv_auto; fields_solve; try absurd_guard.
Qed.

(** A failure met with the flag already cleared neither notifies nor logs
    through [logger.error]. *)
Lemma inv_failure_quiet (o : op) :
  is_failure o = true ->
  inv (fun c => last_update_success c = false) is_transition_effect (exec o).
Proof.
  destruct o; try discriminate; unfold is_failure, fetch_fails; intros Hf;
    inv_auto; fields_solve; try absurd_guard.
Qed.

(** ** Sequences of triggers *)

Lemma count_ev_weaken (p q : event -> bool) t :
  (forall ev, q ev = true -> p ev = true) ->
  count_ev p t = O -> count_ev q t = O.
Proof.
  intros Hqp. induction t as [|ev t IH]; simpl; [reflexivity|].
  destruct (q ev) eqn:Hq.
  - rewrite (Hqp ev Hq). discriminate.
  - destruct (p ev); [discriminate|]. exact IH.
Qed.

Lemma inv_exec_all P p (ops : list op) :
  (forall o, In o ops -> inv P p (exec o)) -> inv P p (exec_all ops).
Proof.
  induction ops as [|o ops IH]; simpl; intros Hops.
  - apply inv_ret.
  - apply inv_bind.
    + apply inv_job, Hops. left. reflexivity.
    + intros _. apply IH. intros o' Ho'. apply Hops. right. exact Ho'.
Qed.

(** ** The claims about one refresh cycle *)

(** C6.  In a refresh cycle, scheduled or not, whose fetch raises
    NotImplementedError, the error leaves [_async_refresh] (it is not only
    recorded), the listeners are not notified and no callback runs. *)
Theorem programmer_error_propagates (c : Coordinator)
    (update_method : option (fetch_result (option T)))
    (log_failures raise_on_auth_failed scheduled raise_on_entry_error : bool) :
  aborts scheduled c = false ->
  _async_update_data update_method = Raises NotImplementedError ->
  let r := _async_refresh update_method log_failures raise_on_auth_failed
             scheduled raise_on_entry_error c in
  outcome r = Raise NotImplementedError
  /\ notifications r = O
  /\ invoked (trace r) = []
  /\ last_exception (final r) = Some NotImplementedError.
Proof.
  intros Hg Hf r. subst r. unfold notifications.
  apply (wp__async_refresh update_method log_failures raise_on_auth_failed
           scheduled raise_on_entry_error
           (fun c' t o =>
              o = Raise NotImplementedError
              /\ count_ev (is_enter m_async_update_listeners) t = O
              /\ invoked t = []
              /\ last_exception c' = Some NotImplementedError) c Hg).
  intros c' t o F. rewrite Hf in F.
  destruct (cf_propagated _ _ _ _ _ _ _ F NotImplementedError eq_refl)
    as (Ho & _ & Hi).
  split; [exact Ho|]. split; [exact (cf_notifications _ _ _ _ _ _ _ F)|].
  split; [exact Hi|].
  pose proof (cf_core _ _ _ _ _ _ _ F) as Hc.
  unfold core, settle in Hc; fields; cbn in Hc. congruence.
Qed.

(** C10.  When the fetch raises NotImplementedError the cycle records it in
    [last_exception] and leaves the other fields of the coordinator as they
    were: [data] and [last_update_success] keep their values, so does the
    configuration, the shutdown flag and the listener set; an entity reading
    the coordinator reports the availability it reported before. *)
Theorem programmer_error_frame (c : Coordinator)
    (update_method : option (fetch_result (option T)))
    (log_failures raise_on_auth_failed scheduled raise_on_entry_error : bool) :
  aborts scheduled c = false ->
  _async_update_data update_method = Raises NotImplementedError ->
  let c' := final (_async_refresh update_method log_failures
                     raise_on_auth_failed scheduled raise_on_entry_error c) in
  last_exception c' = Some NotImplementedError
  /\ data c' = data c
  /\ last_update_success c' = last_update_success c
  /\ available c' = available c
  /\ name c' = name c
  /\ _update_interval c' = _update_interval c
  /\ _update_interval_seconds c' = _update_interval_seconds c
  /\ _microsecond c' = _microsecond c
  /\ always_update c' = always_update c
  /\ _shutdown_requested c' = _shutdown_requested c
  /\ config_entry c' = config_entry c
  /\ _listeners c' = _listeners c.
Proof.
  intros Hg Hf c'. subst c'. unfold available.
  apply (wp__async_refresh update_method log_failures raise_on_auth_failed
           scheduled raise_on_entry_error
           (fun c' _ _ =>
              last_exception c' = Some NotImplementedError
              /\ data c' = data c
              /\ last_update_success c' = last_update_success c
              /\ last_update_success c' = last_update_success c
              /\ name c' = name c
              /\ _update_interval c' = _update_interval c
              /\ _update_interval_seconds c' = _update_interval_seconds c
              /\ _microsecond c' = _microsecond c
              /\ always_update c' = always_update c
              /\ _shutdown_requested c' = _shutdown_requested c
              /\ config_entry c' = config_entry c
              /\ _listeners c' = _listeners c) c Hg).
  intros c' t o F. rewrite Hf in F.
  destruct (cf_propagated _ _ _ _ _ _ _ F NotImplementedError eq_refl)
    as (_ & Hl & _).
  pose proof (cf_core _ _ _ _ _ _ _ F) as Hc.
  unfold core, settle in Hc; fields; cbn in Hc.
  repeat split; congruence.
Qed.

(** C5.  At the end of a refresh cycle that reached the fetch, whatever the
    fetch did and whether or not its error propagates, [_schedule_refresh]
    is called once if the listener set is not empty, the host is not
    stopping and the fetch did not raise ConfigEntryAuthFailed, and is not
    called otherwise; it hands a timer to the loop when, in addition, an
    update interval is set and polling is not disabled. *)
Theorem rearm_decision (c : Coordinator)
    (update_method : option (fetch_result (option T)))
    (log_failures raise_on_auth_failed scheduled raise_on_entry_error : bool) :
  aborts scheduled c = false ->
  let fetched := _async_update_data update_method in
  let r := _async_refresh update_method log_failures raise_on_auth_failed
             scheduled raise_on_entry_error c in
  arm_calls r
  = (if dict_nonempty (_listeners c) && negb (is_stopping (hass c))
        && negb (auth_failed_of fetched)
     then 1 else 0)%nat
  /\ timers_armed r
     = (if dict_nonempty (_listeners c) && negb (is_stopping (hass c))
           && negb (auth_failed_of fetched)
        then match schedules c with Some _ => 1 | None => 0 end
        else 0)%nat.
Proof.
  intros Hg fetched r. subst r. unfold arm_calls, timers_armed.
  apply (wp__async_refresh update_method log_failures raise_on_auth_failed
           scheduled raise_on_entry_error
           (fun _ t _ =>
              count_ev (is_enter m_schedule_refresh) t
              = (if dict_nonempty (_listeners c)
                    && negb (is_stopping (hass c))
                    && negb (auth_failed_of fetched)
                 then 1 else 0)%nat
              /\ count_ev is_call_at t
                 = (if dict_nonempty (_listeners c)
                       && negb (is_stopping (hass c))
                       && negb (auth_failed_of fetched)
                    then match schedules c with Some _ => 1 | None => 0 end
                    else 0)%nat) c Hg).
  intros c' t o F. fold fetched in F.
  rewrite (cf_arm_calls _ _ _ _ _ _ _ F), (cf_timers _ _ _ _ _ _ _ F).
  unfold rearms.
  destruct (auth_failed_of fetched), (dict_nonempty (_listeners c)),
    (is_stopping (hass c)); split; reflexivity.
Qed.

(** C1, as the code has it.  In a refresh cycle whose fetch raises
    ConfigEntryAuthFailed and that is not asked to re-raise it, the
    listeners are notified exactly when the success flag was set before the
    cycle (the transition into failure), whatever [always_update] is; with
    the flag already cleared they are not.  What the cycle never does is
    call [_schedule_refresh]. *)
Theorem auth_failure_notification (c : Coordinator)
    (update_method : option (fetch_result (option T)))
    (log_failures scheduled raise_on_entry_error : bool) :
  aborts scheduled c = false ->
  _async_update_data update_method = Raises ConfigEntryAuthFailed ->
  let r := _async_refresh update_method log_failures false scheduled
             raise_on_entry_error c in
  notifications r = (if last_update_success c then 1 else 0)%nat
  /\ arm_calls r = O.
Proof.
  intros Hg Hf r. subst r. unfold notifications, arm_calls.
  apply (wp__async_refresh update_method log_failures false scheduled
           raise_on_entry_error
           (fun _ t _ =>
              count_ev (is_enter m_async_update_listeners) t
              = (if last_update_success c then 1 else 0)%nat
              /\ count_ev (is_enter m_schedule_refresh) t = O) c Hg).
  intros c' t o F. rewrite Hf in F.
  rewrite (cf_notifications _ _ _ _ _ _ _ F), (cf_arm_calls _ _ _ _ _ _ _ F).
  cbn. unfold should_notify. cbn.
  destruct (last_update_success c), (always_update c); split; reflexivity.
Qed.

Lemma completed_cycle (c : Coordinator)
    (update_method : option (fetch_result (option T)))
    (lf roa sch roe : bool) :
  let r := _async_refresh update_method lf roa sch roe c in
  completed r ->
  aborts sch c = false
  /\ propagated (_async_update_data update_method) roa roe = None
  /\ cycle_facts c (_async_update_data update_method) roa roe
       (final r) (trace r) (outcome r).
Proof.
  intros r [Hfetch Hout]. subst r. unfold fetches in Hfetch.
  destruct (aborts sch c) eqn:Hg.
  - exfalso. revert Hfetch.
    apply (wp__async_refresh_aborted update_method lf roa sch roe
             (fun _ t _ => count_ev is_await t = 1%nat -> False) c Hg).
    intros t Ht. counts. discriminate.
  - split; [reflexivity|].
    assert (F : cycle_facts c (_async_update_data update_method) roa roe
                  (final (_async_refresh update_method lf roa sch roe c))
                  (trace (_async_refresh update_method lf roa sch roe c))
                  (outcome (_async_refresh update_method lf roa sch roe c))).
    { apply (wp__async_refresh update_method lf roa sch roe
               (cycle_facts c (_async_update_data update_method) roa roe)
               c Hg).
      intros c' t o F. exact F. }
    split; [|exact F].
    destruct (propagated (_async_update_data update_method) roa roe)
      as [e|] eqn:Hp; [|reflexivity].
    destruct (cf_propagated _ _ _ _ _ _ _ F e Hp) as (Ho & _).
    rewrite Hout in Ho. discriminate.
Qed.

(** C3.  For a completed refresh cycle the listeners are notified once or
    not at all, and once exactly when the flag is not cleared both before
    and after the cycle and [always_update] is set, or the flag changed, or
    the data differs from the data before.  Hence of two consecutive
    completed failing cycles that start with the flag set, the first
    notifies once and the second does not. *)
Theorem notification_policy (c : Coordinator)
    (um1 um2 : option (fetch_result (option T)))
    (lf1 roa1 sch1 roe1 lf2 roa2 sch2 roe2 : bool) :
  let r1 := _async_refresh um1 lf1 roa1 sch1 roe1 c in
  let r2 := _async_refresh um2 lf2 roa2 sch2 roe2 (final r1) in
  (completed r1 ->
   (notifications r1 = 1%nat \/ notifications r1 = O)
   /\ (notifications r1 = 1%nat <->
       ~ (last_update_success (final r1) = false
          /\ last_update_success c = false)
       /\ (always_update c = true
           \/ last_update_success (final r1) <> last_update_success c
           \/ data (final r1) <> data c)))
  /\ (completed r1 -> completed r2 ->
      fetch_fails um1 = true -> fetch_fails um2 = true ->
      last_update_success c = true ->
      notifications r1 = 1%nat /\ notifications r2 = O).
Proof.
  intros r1 r2.
  assert (Hcount : forall c um lf roa sch roe,
            let r := _async_refresh um lf roa sch roe c in
            completed r ->
            last_update_success (final r)
            = settled_success (last_update_success c) (_async_update_data um)
            /\ data (final r) = settled_data (data c) (_async_update_data um)
            /\ notifications r
               = (if should_notify (always_update c) (last_update_success c)
                       (last_update_success (final r)) (data c)
                       (data (final r))
                  then 1 else 0)%nat).
  { clear. intros c um lf roa sch roe r Hc.
    destruct (completed_cycle c um lf roa sch roe Hc) as (_ & Hp & F).
    fold r in F. pose proof (cf_core _ _ _ _ _ _ _ F) as Hcore.
    pose proof (cf_notifications _ _ _ _ _ _ _ F) as Hn. rewrite Hp in Hn.
    unfold core, settle in Hcore; fields.
    assert (Hl : last_update_success (final r)
                 = settled_success (last_update_success c)
                     (_async_update_data um)) by congruence.
    assert (Hd : data (final r)
                 = settled_data (data c) (_async_update_data um))
      by congruence.
    split; [exact Hl|]. split; [exact Hd|].
    unfold notifications. rewrite Hn, Hl, Hd. reflexivity. }
  split.
  - intros Hc. destruct (Hcount c um1 lf1 roa1 sch1 roe1 Hc) as (_ & _ & Hn).
    fold r1 in Hn. rewrite Hn. unfold should_notify.
    destruct (last_update_success (final r1)), (last_update_success c),
      (always_update c); cbn;
      try (case_bool_decide as Hd; cbn);
      (split; [auto|]); split;
      try discriminate; try (intros _; split; [intros [? ?]; discriminate|]);
      auto; try (intros [Hne H]; exfalso).
    all: try (apply Hne; split; reflexivity).
    all: try (destruct H as [H|[H|H]];
              [discriminate | apply H; reflexivity | apply H; congruence]).
  - intros Hc1 Hc2 Hf1 Hf2 Hlus.
    destruct (Hcount c um1 lf1 roa1 sch1 roe1 Hc1) as (Hl1 & _ & Hn1).
    destruct (Hcount (final r1) um2 lf2 roa2 sch2 roe2 Hc2) as (Hl2 & _ & Hn2).
    destruct (completed_cycle c um1 lf1 roa1 sch1 roe1 Hc1) as (_ & Hp1 & _).
    destruct (completed_cycle (final r1) um2 lf2 roa2 sch2 roe2 Hc2)
      as (_ & Hp2 & _).
    fold r1 in Hl1, Hn1, Hl2, Hn2. fold r2 in Hl2, Hn2.
    unfold fetch_fails in Hf1, Hf2.
    assert (H1 : last_update_success (final r1) = false).
    { rewrite Hl1. destruct (_async_update_data um1); [discriminate|].
      cbn in *. destruct (matching_clause err); try reflexivity.
      discriminate. }
    assert (H2 : last_update_success (final r2) = false).
    { rewrite Hl2. destruct (_async_update_data um2); [discriminate|].
      cbn in *. destruct (matching_clause err); try reflexivity.
      discriminate. }
    rewrite Hn1, Hn2, H1, H2, Hlus. unfold should_notify. cbn.
    split; [|reflexivity]. destruct (always_update c); reflexivity.
Qed.

(** ** The claims about triggers and entry points *)

(** C4.  From a reachable state, a trigger clears [last_update_success]
    only if it is a failure (a fetch that raises, or an injected error) met
    with the flag set, and sets it only if it is a fetch that returns or an
    injected data value.  A failure met with the flag already cleared leaves
    it cleared and repeats neither side effect of the transition: no
    listener is notified and nothing is logged through [logger.error].
    (The catch-all clause logs through [logger.exception] on every
    occurrence; that call is outside the transition block.) *)
Theorem success_flag_transitions (c : Coordinator) (o : op) :
  reachable c ->
  let r := exec o c in
  (last_update_success c = true -> last_update_success (final r) = false ->
   is_failure o = true)
  /\ (last_update_success c = false -> last_update_success (final r) = true ->
      is_success o = true)
  /\ (last_update_success c = false -> is_failure o = true ->
      last_update_success (final r) = false
      /\ notifications r = O
      /\ count_ev (is_log error) (trace r) = O).
Proof.
  intros _ r. subst r. split; [|split].
  - intros Hc Hr. destruct (is_failure o) eqn:Hf; [reflexivity|].
    destruct (inv_success_stays o Hf c Hc) as [Hs _]. congruence.
  - intros Hc Hr. destruct (is_success o) eqn:Hs; [reflexivity|].
    destruct (inv_failure_stays o Hs c Hc) as [Hf _]. congruence.
  - intros Hc Hf. destruct (inv_failure_quiet o Hf c Hc) as [Hl Ht].
    split; [exact Hl|]. unfold notifications. split.
    + revert Ht. apply count_ev_weaken. unfold is_transition_effect.
      intros ev ->. reflexivity.
    + revert Ht. apply count_ev_weaken. unfold is_transition_effect.
      intros ev ->. apply orb_true_r.
Qed.

Lemma async_shutdown_final (c : Coordinator) :
  _shutdown_requested (final (async_shutdown c)) = true
  /\ _unsub_refresh (final (async_shutdown c)) = None.
Proof.
  change (wp async_shutdown
            (fun c' _ _ => _shutdown_requested c' = true
                           /\ _unsub_refresh c' = None) c).
  unfold async_shutdown. repeat wp_step.
  apply wp__async_unsub_refresh. intros t Ht.
  unfold _async_unsub_shutdown, Debouncer_async_shutdown.
  repeat wp_step. fields.
  destruct (_unsub_shutdown c); repeat wp_step; fields; split; reflexivity.
Qed.

(** C2, as the code has it.  After [shutdown()] no sequence of triggers
    awaits the fetch, and the shutdown flag stays set.  A sequence without
    a listener addition or a data injection (timer fires, refresh requests
    and the rest) hands no timer to the loop and leaves none armed.
    [_schedule_refresh] itself does not read the flag: adding the first
    listener after [shutdown()] arms the timer whenever an update interval
    is set and polling is not disabled. *)
Theorem shutdown_stops_fetching (c : Coordinator) (ops : list op) :
  let s := final (async_shutdown c) in
  let r := exec_all ops s in
  fetches r = O
  /\ _shutdown_requested (final r) = true
  /\ (forallb (fun o => negb (arms_directly o)) ops = true ->
      timers_armed r = O /\ _unsub_refresh (final r) = None)
  /\ (forall update_callback context at_,
        _listeners s = [] -> schedules s = Some at_ ->
        let r' := async_add_listener update_callback context s in
        timers_armed r' = 1%nat /\ _unsub_refresh (final r') = Some at_).
Proof.
  intros s r. destruct (async_shutdown_final c) as [Hs Hu]. fold s in Hs, Hu.
  split; [|split; [|split]].
  - subst r. unfold fetches.
    apply (inv_exec_all (fun c => _shutdown_requested c = true) is_await ops);
      [|exact Hs].
    intros o _. apply inv_shutdown_no_fetch.
  - subst r.
    apply (inv_exec_all (fun c => _shutdown_requested c = true) is_await ops);
      [|exact Hs].
    intros o _. apply inv_shutdown_no_fetch.
  - intros Hops. subst r. unfold timers_armed.
    destruct (inv_exec_all
                (fun c => _shutdown_requested c = true
                          /\ _unsub_refresh c = None) is_call_at ops)
      with (c := s) as [[_ Hn] Ht].
    + intros o Ho. apply inv_shutdown_no_timer.
      rewrite forallb_forall in Hops. specialize (Hops o Ho).
      destruct (arms_directly o); [discriminate|reflexivity].
    + split; assumption.
    + split; assumption.
  - intros update_callback context at_ Hl Hat r'. subst r'.
    unfold timers_armed.
    change (wp (async_add_listener update_callback context)
              (fun c' t _ => count_ev is_call_at t = 1%nat
                             /\ _unsub_refresh c' = Some at_) s).
    unfold async_add_listener. do 2 wp_step. do 2 wp_step.
    rewrite Hl. cbn [dict_nonempty negb]. wp_step. wp_step.
    apply wp__schedule_refresh. intros t Ht He Hc.
    change (schedules (set_listeners (dict_setitem (next_handle s)
                                        (update_callback, context) [])
                         (S (next_handle s)) s))
      with (schedules s) in *.
    rewrite Hat in *. wp_step. fields. counts. split; [lia|reflexivity].
Qed.

Lemma randint_range (lo hi entropy : Z) :
  lo <= hi -> lo <= randint lo hi entropy <= hi.
Proof.
  intros Hle. unfold randint.
  pose proof (Z.mod_pos_bound entropy (hi - lo + 1)). lia.
Qed.

Lemma schedule_refresh_call_at (c : Coordinator) (at_ : Z) :
  schedules c = Some at_ ->
  In (CallAt at_) (trace (_schedule_refresh c))
  /\ _unsub_refresh (final (_schedule_refresh c)) = Some at_.
Proof.
  intros Hs.
  change (wp _schedule_refresh
            (fun c' t _ => In (CallAt at_) t
                           /\ _unsub_refresh c' = Some at_) c).
  unfold schedules in Hs. unfold _schedule_refresh. do 4 wp_step.
  destruct (_update_interval_seconds c) as [i|]; [|discriminate].
  destruct (polling_disabled c); [discriminate|]. injection Hs as <-.
  wp_step. apply wp__async_unsub_refresh. intros t Ht.
  do 2 wp_step. do 2 wp_step. wp_step. fields. split; [|reflexivity].
  cbn [app]. right. apply in_or_app. right. left. reflexivity.
Qed.

(** C9, as the code has it.  Whenever [_schedule_refresh] schedules (an
    update interval is set and polling is not disabled) the timer is set to
    fire at the loop time truncated to whole seconds, plus the jitter
    offset, plus the update interval.  The jitter offset is the value drawn
    by [__init__] from the range 0.05 s to 0.50 s and is the same in every
    state the coordinator reaches. *)
Theorem arm_time (hass0 : HomeAssistant) (logger_debug0 : bool)
    (name0 : string) (update_interval0 : option Z)
    (request_refresh_debouncer0 : option Debouncer) (always_update0 : bool)
    (current_entry0 : option ConfigEntry) (entropy : Z) (ops : list op)
    (update_interval_seconds : Z) :
  let c0 := __init__ hass0 logger_debug0 name0 update_interval0
              request_refresh_debouncer0 always_update0 current_entry0
              entropy in
  let c := final (exec_all ops c0) in
  _update_interval_seconds c = Some update_interval_seconds ->
  polling_disabled c = false ->
  let r := _schedule_refresh c in
  let at_ := int (loop_time (hass c)) + _microsecond c
             + update_interval_seconds in
  _unsub_refresh (final r) = Some at_
  /\ In (CallAt at_) (trace r)
  /\ timers_armed r = 1%nat
  /\ _microsecond c = _microsecond c0
  /\ 50000 <= _microsecond c <= 500000.
Proof.
  intros c0 c Hi Hp r at_.
  assert (Hs : schedules c = Some at_).
  { unfold schedules. rewrite Hi, Hp. reflexivity. }
  destruct (schedule_refresh_call_at c at_ Hs) as [Hin Hu].
  assert (Hm : _microsecond c = _microsecond c0).
  { apply (inv_exec_all (fun c => _microsecond c = _microsecond c0)
             (fun _ => false) ops); [|reflexivity].
    intros o _. apply inv_microsecond. }
  split; [exact Hu|]. split; [exact Hin|]. split; [|split; [exact Hm|]].
  - subst r. unfold timers_armed.
    apply (wp__schedule_refresh
             (fun _ t _ => count_ev is_call_at t = 1%nat) c).
    intros t _ _ Hc. rewrite Hc, Hs. reflexivity.
  - rewrite Hm. subst c0. cbn [_microsecond __init__].
    apply (randint_range RANDOM_MICROSECOND_MIN RANDOM_MICROSECOND_MAX).
    unfold RANDOM_MICROSECOND_MIN, RANDOM_MICROSECOND_MAX. lia.
Qed.

(** C7, as the code has it.  [async_config_entry_first_refresh] runs one
    cycle with [log_failures] off and both [raise_on_auth_failed] and
    [raise_on_entry_error] on, and does nothing else to the coordinator.
    An exception that leaves the cycle (ConfigEntryAuthFailed,
    ConfigEntryError and NotImplementedError do) leaves the entry point
    unchanged.  When the cycle returns with [last_update_success] cleared
    the entry point raises ConfigEntryNotReady whose cause is
    [last_exception], which is the error of the fetch when the fetch of
    this cycle raised; when the cycle returns with the flag set the entry
    point returns. *)
Theorem first_refresh_outcome (c : Coordinator)
    (update_method : option (fetch_result (option T))) :
  let cycle := _async_refresh update_method false true false true c in
  let r := async_config_entry_first_refresh update_method c in
  final r = final cycle
  /\ trace r = trace cycle
  /\ (fetches r <= 1)%nat
  /\ outcome r
     = match outcome cycle with
       | Raise e => Raise e
       | Ok _ =>
           if last_update_success (final cycle) then Ok tt
           else Raise (ConfigEntryNotReady (last_exception (final cycle)))
       end
  /\ (forall err,
        aborts false c = false ->
        _async_update_data update_method = Raises err ->
        (err = ConfigEntryAuthFailed \/ err = ConfigEntryError
         \/ err = NotImplementedError -> outcome r = Raise err)
        /\ (outcome cycle = Ok tt ->
            outcome r = Raise (ConfigEntryNotReady (Some err))))
  /\ (forall value,
        aborts false c = false ->
        _async_update_data update_method = Returns value ->
        outcome cycle = Ok tt -> outcome r = Ok tt).
Proof.
  intros cycle r.
  assert (Hshape :
            final r = final cycle /\ trace r = trace cycle
            /\ outcome r
               = match outcome cycle with
                 | Raise e => Raise e
                 | Ok _ =>
                     if last_update_success (final cycle) then Ok tt
                     else Raise (ConfigEntryNotReady
                                   (last_exception (final cycle)))
                 end).
  { subst r. unfold async_config_entry_first_refresh, bind. fold cycle.
    destruct (outcome cycle) as [[]|e]; cbn [final trace outcome get].
    - destruct (last_update_success (final cycle));
        cbn [final trace outcome ret raise]; rewrite !app_nil_r;
        repeat split; reflexivity.
    - repeat split; reflexivity. }
  destruct Hshape as (Hfin & Htr & Hout).
  assert (Hcases :
            (aborts false c = true /\ fetches cycle = O
             /\ last_update_success (final cycle) = last_update_success c)
            \/ (aborts false c = false
                /\ cycle_facts c (_async_update_data update_method) true true
                     (final cycle) (trace cycle) (outcome cycle))).
  { destruct (aborts false c) eqn:Hg.
    - left. split; [reflexivity|]. subst cycle. unfold fetches.
      apply (wp__async_refresh_aborted update_method false true false true
               (fun c' t _ => count_ev is_await t = O
                              /\ last_update_success c'
                                 = last_update_success c) c Hg).
      intros t Ht. split; [counts; reflexivity | reflexivity].
    - right. split; [reflexivity|]. subst cycle.
      apply (wp__async_refresh update_method false true false true
               (cycle_facts c (_async_update_data update_method) true true)
               c Hg).
      intros c' t o F. exact F. }
  split; [exact Hfin|]. split; [exact Htr|]. split; [|split; [exact Hout|]].
  - unfold fetches. rewrite Htr.
    destruct Hcases as [(_ & H0 & _)|(_ & F)].
    + unfold fetches in H0. rewrite H0. lia.
    + rewrite (cf_fetches _ _ _ _ _ _ _ F). lia.
  - split.
    + intros err Hg Hf. destruct Hcases as [(Hg' & _)|(_ & F)];
        [congruence|].
      pose proof (cf_core _ _ _ _ _ _ _ F) as Hcore.
      rewrite Hf in F, Hcore. split.
      * intros Herr.
        assert (Hp : propagated (Raises err) true true = Some err)
          by (destruct Herr as [->|[->| ->]]; reflexivity).
        destruct (cf_propagated _ _ _ _ _ _ _ F err Hp) as (Ho & _).
        rewrite Hout, Ho. reflexivity.
      * intros Hok. rewrite Hout, Hok.
        unfold core, settle in Hcore; fields.
        assert (Hl : last_update_success (final cycle)
                     = settled_success (last_update_success c) (Raises err))
          by congruence.
        assert (He : last_exception (final cycle) = Some err)
          by (cbn in Hcore; congruence).
        destruct (propagated (Raises err) true true) as [e|] eqn:Hp.
        -- destruct (cf_propagated _ _ _ _ _ _ _ F e Hp) as (Ho & _).
           congruence.
        -- rewrite Hl, He. unfold propagated in Hp. cbn.
           destruct (matching_clause err); try discriminate; reflexivity.
    + intros value Hg Hf Hok. rewrite Hout, Hok.
      destruct Hcases as [(Hg' & _)|(_ & F)].
      * congruence.
      * pose proof (cf_core _ _ _ _ _ _ _ F) as Hcore. rewrite Hf in Hcore.
        unfold core, settle in Hcore; fields.
        assert (Hl : last_update_success (final cycle) = true)
          by (cbn in Hcore; congruence).
        rewrite Hl. reflexivity.
Qed.

(** ** Notification over a snapshot *)

Lemma dict_pop_None {V} (k : nat) (d : dict V) :
  ~ In k (dict_keys d) -> dict_pop k d = None.
Proof.
  induction d as [|[k' v] d IH]; simpl; intros Hk; [reflexivity|].
  destruct (Nat.eqb_spec k k') as [->|Hne]; [tauto|].
  rewrite IH by tauto. reflexivity.
Qed.

Lemma dict_pop_Some {V} (k : nat) (d : dict V) :
  In k (dict_keys d) ->
  exists v rest,
    dict_pop k d = Some (v, rest)
    /\ (List.NoDup (dict_keys d) ->
        List.NoDup (dict_keys rest)
        /\ forall k', In k' (dict_keys rest) <-> In k' (dict_keys d) /\ k' <> k).
Proof.
  induction d as [|[k0 v0] d IH]; simpl; intros Hk; [tauto|].
  destruct (Nat.eqb_spec k k0) as [->|Hne].
  - exists v0, d. split; [reflexivity|]. intros Hnd.
    apply List.NoDup_cons_iff in Hnd as [Hnotin Hnd]. split; [exact Hnd|].
    intros k'. split.
    + intros Hin. split; [right; exact Hin|]. intros ->. exact (Hnotin Hin).
    + intros [[<-|Hin] Hne]; [congruence | exact Hin].
  - destruct IH as (v & rest & Hpop & Hrest); [destruct Hk; congruence|].
    rewrite Hpop. exists v, ((k0, v0) :: rest). split; [reflexivity|].
    intros Hnd. apply List.NoDup_cons_iff in Hnd as [Hnotin Hnd].
    destruct (Hrest Hnd) as [Hnd' Hiff]. simpl. split.
    + apply List.NoDup_cons_iff. split; [|exact Hnd'].
      intros Hin. apply Hiff in Hin. tauto.
    + intros k'. rewrite Hiff. split.
      * intros [<-|[Hin Hne']]; [split; [left; reflexivity|congruence]|].
        split; [right; exact Hin | exact Hne'].
      * intros [[<-|Hin] Hne']; [left; reflexivity | right; tauto].
Qed.

Lemma NoDup_app_inv {A} (l1 l2 : list A) :
  List.NoDup (l1 ++ l2) ->
  List.NoDup l1 /\ List.NoDup l2 /\ forall a, In a l1 -> ~ In a l2.
Proof.
  induction l1 as [|x l1 IH]; simpl; intros Hnd.
  - split; [constructor|]. split; [exact Hnd|]. intros a [].
  - apply List.NoDup_cons_iff in Hnd as [Hnotin Hnd].
    destruct (IH Hnd) as (H1 & H2 & Hd). split.
    + apply List.NoDup_cons_iff. split; [|exact H1].
      intros Hin. apply Hnotin, in_or_app. left. exact Hin.
    + split; [exact H2|]. intros a [<-|Hin] Hin2.
      * apply Hnotin, in_or_app. right. exact Hin2.
      * exact (Hd a Hin Hin2).
Qed.

Lemma wp_remove_listener (h : nat) Q c :
  match dict_pop h (_listeners c) with
  | None => Q c [] (Raise KeyError)
  | Some (_, rest) =>
      forall c' t, _listeners c' = rest -> only is_cancel t -> Q c' t (Ok tt)
  end ->
  wp (remove_listener h) Q c.
Proof.
  intros HQ. unfold remove_listener. do 2 wp_step.
  destruct (dict_pop h (_listeners c)) as [[v rest]|]; cbv beta iota.
  - repeat wp_step.
    destruct (dict_nonempty rest); cbn [negb].
    + apply HQ; reflexivity.
    + apply wp__unschedule_refresh. intros t Ht. apply HQ; [reflexivity|].
      exact Ht.
  - wp_step. exact HQ.
Qed.

Lemma unsubscribe_all_ok (hs : list nat) (c : Coordinator) :
  List.NoDup (dict_keys (_listeners c)) ->
  List.NoDup hs ->
  (forall h, In h hs -> In h (dict_keys (_listeners c))) ->
  let r := for_each hs remove_listener c in
  outcome r = Ok tt
  /\ List.NoDup (dict_keys (_listeners (final r)))
  /\ forall k, In k (dict_keys (_listeners (final r)))
               <-> In k (dict_keys (_listeners c)) /\ ~ In k hs.
Proof.
  revert c. induction hs as [|h hs IH]; intros c Hnd Hhs Hsub r; subst r.
  - simpl. split; [reflexivity|]. split; [exact Hnd|]. intros k. tauto.
  - change (wp (for_each (h :: hs) remove_listener)
              (fun c' _ o =>
                 o = Ok tt
                 /\ List.NoDup (dict_keys (_listeners c'))
                 /\ forall k, In k (dict_keys (_listeners c'))
                              <-> In k (dict_keys (_listeners c))
                                  /\ ~ In k (h :: hs)) c).
    cbn [for_each]. wp_step. apply wp_remove_listener.
    destruct (dict_pop_Some h (_listeners c)) as (v & rest & Hpop & Hrest);
      [apply Hsub; left; reflexivity|].
    rewrite Hpop. intros c' t Hl Ht. destruct (Hrest Hnd) as [Hnd' Hiff].
    apply List.NoDup_cons_iff in Hhs as [Hnotin Hhs].
    destruct (IH c') as (Ho & Hn & Hk).
    + rewrite Hl. exact Hnd'.
    + exact Hhs.
    + intros h' Hh'. rewrite Hl. apply Hiff. split.
      * apply Hsub. right. exact Hh'.
      * intros ->. exact (Hnotin Hh').
    + unfold wp. split; [exact Ho|]. split; [exact Hn|].
      intros k. rewrite Hk, Hl, Hiff. simpl. split.
      * intros [[Hin Hne] Hnot]. split; [exact Hin|].
        intros [Heq|Hin']; [congruence | tauto].
      * intros [Hin Hnot]. split; [split; [exact Hin|]|]; intros ?; subst;
          apply Hnot; tauto.
Qed.

Lemma call_invoked (cb : callback) (c : Coordinator) :
  invoked (trace (call cb c)) = [cb].
Proof.
  change (wp (call cb) (fun _ t _ => invoked t = [cb]) c).
  unfold call. do 2 wp_step.
  destruct (inv_for_each (fun c' => core c' = core c)
              (fun ev => negb (is_cancel ev)) (cb_unsubscribes cb)
              remove_listener (fun h => inv_remove_listener _ h) c eq_refl)
    as [_ Ht].
  apply count_zero_only in Ht. unfold wp. cbn [app invoked].
  rewrite (only_invoked is_cancel _ ltac:(intros; reflexivity) Ht).
  reflexivity.
Qed.

Lemma call_run (cb : callback) (c : Coordinator) :
  final (call cb c) = final (for_each (cb_unsubscribes cb) remove_listener c)
  /\ outcome (call cb c)
     = outcome (for_each (cb_unsubscribes cb) remove_listener c).
Proof.
  unfold call, bind, emit. cbn [final trace outcome].
  destruct (outcome (for_each (cb_unsubscribes cb) remove_listener c));
    split; reflexivity.
Qed.

Lemma notify_loop_snapshot (items : list (callback * option Ctx))
    (c : Coordinator) :
  let r := for_each items (fun item => call (fst item)) c in
  (exists rest, map fst items = invoked (trace r) ++ rest)
  /\ (outcome r = Ok tt -> invoked (trace r) = map fst items).
Proof.
  revert c. induction items as [|[cb ctx] items IH]; intros c r; subst r.
  - simpl. split; [exists []; reflexivity | reflexivity].
  - cbn [for_each map fst]. unfold bind.
    pose proof (call_invoked cb c) as Hcall.
    destruct (outcome (call cb c)) as [[]|e]; cbn [trace outcome].
    + rewrite invoked_app, Hcall.
      destruct (IH (final (call cb c))) as [[rest Hrest] Hok]. split.
      * exists rest. cbn [app]. rewrite Hrest at 1. reflexivity.
      * intros Ho. cbn [app]. rewrite (Hok Ho). reflexivity.
    + rewrite Hcall. split; [exists (map fst items); reflexivity|].
      discriminate.
Qed.

Lemma notify_loop_ok (items : list (callback * option Ctx))
    (c : Coordinator) :
  List.NoDup (dict_keys (_listeners c)) ->
  List.NoDup (unsubscribed (map fst items)) ->
  (forall h, In h (unsubscribed (map fst items)) ->
             In h (dict_keys (_listeners c))) ->
  outcome (for_each items (fun item => call (fst item)) c) = Ok tt.
Proof.
  revert c. induction items as [|[cb ctx] items IH]; intros c Hnd Hts Hsub.
  - reflexivity.
  - unfold unsubscribed in Hts, Hsub. cbn [map fst concat] in Hts, Hsub.
    apply NoDup_app_inv in Hts as (Hhs & Hrest & Hdisj).
    destruct (unsubscribe_all_ok (cb_unsubscribes cb) c Hnd Hhs)
      as (Ho & Hnd' & Hk).
    { intros h Hh. apply Hsub, in_or_app. left. exact Hh. }
    destruct (call_run cb c) as [Hfin Hout]. rewrite <- Hfin in Hnd', Hk.
    rewrite <- Hout in Ho.
    cbn [for_each fst]. unfold bind. rewrite Ho.
    cbn [final trace outcome]. apply IH.
    + exact Hnd'.
    + exact Hrest.
    + intros h Hh. apply Hk. split.
      * apply Hsub, in_or_app. right. exact Hh.
      * intros Hin. exact (Hdisj h Hin Hh).
Qed.

(** C8.  [async_update_listeners] iterates over the listeners registered
    when it starts: the callbacks it invokes are, in order, an initial part
    of that snapshot, each entry invoked once, whatever the callbacks
    unsubscribe; when no callback raises, they are the whole snapshot.  No
    callback raises when every remove handle is invoked at most once and
    belongs to a registered listener, so that then every registered listener
    is called exactly once, those unsubscribed meanwhile included. *)
Theorem notify_all_snapshot (c : Coordinator) :
  let snapshot := map fst (dict_values (_listeners c)) in
  let r := async_update_listeners c in
  (exists rest, snapshot = invoked (trace r) ++ rest)
  /\ (outcome r = Ok tt -> invoked (trace r) = snapshot)
  /\ (List.NoDup (dict_keys (_listeners c)) -> one_shot c ->
      outcome r = Ok tt /\ invoked (trace r) = snapshot).
Proof.
  intros snapshot r.
  assert (Hr : trace r
               = Enter m_async_update_listeners
                 :: trace (for_each (dict_values (_listeners c))
                             (fun item => call (fst item)) c)
               /\ outcome r
                  = outcome (for_each (dict_values (_listeners c))
                               (fun item => call (fst item)) c)).
  { subst r. unfold async_update_listeners, bind, emit, get.
    cbn [final trace outcome]. split; reflexivity. }
  destruct Hr as [Htr Hout]. rewrite Htr, Hout. cbn [invoked].
  destruct (notify_loop_snapshot (dict_values (_listeners c)) c)
    as [Hprefix Hall].
  split; [exact Hprefix|]. split; [exact Hall|].
  intros Hnd [Hts Hsub].
  assert (Hok := notify_loop_ok (dict_values (_listeners c)) c Hnd Hts Hsub).
  split; [exact Hok | exact (Hall Hok)].
Qed.

(** ** Uniqueness of remove handles *)

Lemma dict_keys_setitem {V} (k : nat) (v : V) (d : dict V) :
  dict_keys (dict_setitem k v d) = dict_keys d ++ [k].
Proof. unfold dict_keys, dict_setitem. rewrite map_app. reflexivity. Qed.

Lemma handles_fresh_add (c0 c : Coordinator) item :
  handles_fresh c0 ->
  handles_fresh
    (set_listeners (dict_setitem (next_handle c0) item (_listeners c0))
       (S (next_handle c0)) c).
Proof.
  unfold handles_fresh. fields. intros [Hnd Hlt].
  rewrite dict_keys_setitem. split.
  - apply List.NoDup_app; [exact Hnd | repeat constructor; intros [] |].
    intros k Hk [Heq|[]]. subst k. specialize (Hlt _ Hk). lia.
  - intros k Hk. apply in_app_or in Hk as [Hk|[Heq|[]]]; [|subst k; lia].
    specialize (Hlt k Hk). lia.
Qed.

Lemma handles_fresh_pop (c0 c : Coordinator) h item rest :
  handles_fresh c0 ->
  dict_pop h (_listeners c0) = Some (item, rest) ->
  handles_fresh (set_listeners rest (next_handle c0) c).
Proof.
  unfold handles_fresh. fields. intros [Hnd Hlt] Hpop.
  destruct (in_dec Nat.eq_dec h (dict_keys (_listeners c0))) as [Hin|Hnot].
  - destruct (dict_pop_Some h (_listeners c0) Hin)
      as (v & rest' & Hpop' & Hrest).
    rewrite Hpop in Hpop'. injection Hpop' as <- <-.
    destruct (Hrest Hnd) as [Hnd' Hiff]. split; [exact Hnd'|].
    intros k Hk. apply Hlt, Hiff, Hk.
  - rewrite (dict_pop_None h _ Hnot) in Hpop. discriminate.
Qed.

(** Remove handles are unique in every state a trigger leads to. *)
Lemma inv_handles_fresh (o : op) :
  inv handles_fresh (fun _ => false) (exec o).
Proof.
  destruct o; inv_auto;
    try solve [unfold handles_fresh in *; fields; assumption];
    try solve [eapply handles_fresh_add; eassumption];
    try solve [eapply handles_fresh_pop; eauto; congruence].
Qed.

Lemma reachable_handles_fresh (c : Coordinator) :
  reachable c -> handles_fresh c.
Proof.
  intros (h & dbg & nm & ui & deb & au & ce & en & ops & ->).
  apply (inv_exec_all handles_fresh (fun _ => false) ops).
  - intros o _. apply inv_handles_fresh.
  - unfold handles_fresh. cbn [__init__ _listeners next_handle dict_keys map].
    split; [constructor | intros k []].
Qed.

(** ** Manual injections *)

(** Counts over a trace assembled from pieces. *)
Ltac tally :=
  rewrite ?count_ev_app;
  cbn [count_ev is_enter is_await is_call_at is_log app];
  repeat match goal with
    | H : only ?q ?t |- context [count_ev ?p ?t] =>
        rewrite (only_count q p t ltac:(only_side) H)
    end;
  rewrite ?Nat.add_0_r; cbn [Nat.add]; try lia.

(** X1.  [async_set_updated_data] stores the value, sets
    [last_update_success], leaves [last_exception] as it was, and notifies
    the listeners once, whatever [always_update] is and whether or not the
    value differs from the data before.  It never awaits the fetch, and it
    calls [_schedule_refresh] exactly when there are listeners. *)
Theorem set_updated_data_effect (c : Coordinator) (value : option T) :
  let r := async_set_updated_data value c in
  data (final r) = value
  /\ last_update_success (final r) = true
  /\ last_exception (final r) = last_exception c
  /\ _shutdown_requested (final r) = _shutdown_requested c
  /\ notifications r = 1%nat
  /\ fetches r = O
  /\ arm_calls r = (if dict_nonempty (_listeners c) then 1 else 0)%nat
  /\ timers_armed r
     = (if dict_nonempty (_listeners c)
        then match schedules c with Some _ => 1 | None => 0 end
        else 0)%nat.
Proof.
  intros r. subst r. unfold notifications, fetches, arm_calls, timers_armed.
  change (wp (async_set_updated_data value)
            (fun c' t _ =>
               data c' = value
               /\ last_update_success c' = true
               /\ last_exception c' = last_exception c
               /\ _shutdown_requested c' = _shutdown_requested c
               /\ count_ev (is_enter m_async_update_listeners) t = 1%nat
               /\ count_ev is_await t = O
               /\ count_ev (is_enter m_schedule_refresh) t
                  = (if dict_nonempty (_listeners c) then 1 else 0)%nat
               /\ count_ev is_call_at t
                  = (if dict_nonempty (_listeners c)
                     then match schedules c with Some _ => 1 | None => 0 end
                     else 0)%nat) c).
  unfold async_set_updated_data. wp_step.
  apply wp__async_unsub_refresh. intros t0 Ht0.
  unfold Debouncer_async_cancel. repeat wp_step. fields.
  set (s := set_last_update_success true _).
  destruct (dict_nonempty (_listeners c)) eqn:Hne.
  - apply wp__schedule_refresh. intros t1 Ht1 He1 Hc1.
    change (schedules s) with (schedules c) in *.
    apply wp_async_update_listeners. intros c' t o Hc' Ht.
    assert (Hcore : core c' = core s)
      by (rewrite Hc'; destruct (schedules c); reflexivity).
    subst s. unfold core in Hcore; fields.
    repeat split; try congruence; tally.
  - apply wp_async_update_listeners. intros c' t o Hc' Ht.
    subst s. unfold core in Hc'; fields.
    repeat split; try congruence; tally.
Qed.

(** X2.  [async_set_update_error] always records the error.  With the
    success flag set it clears the flag, logs once through [logger.error]
    and notifies the listeners once; with the flag already cleared it does
    nothing else at all.  It never changes [data], never awaits the fetch
    and never calls [_schedule_refresh]. *)
Theorem set_update_error_effect (c : Coordinator) (err : exception) :
  let r := async_set_update_error err c in
  last_exception (final r) = Some err
  /\ last_update_success (final r) = false
  /\ data (final r) = data c
  /\ notifications r = (if last_update_success c then 1 else 0)%nat
  /\ count_ev (is_log error) (trace r)
     = (if last_update_success c then 1 else 0)%nat
  /\ fetches r = O /\ arm_calls r = O /\ timers_armed r = O
  /\ (last_update_success c = false ->
      final r = set_last_exception (Some err) c /\ trace r = []).
Proof.
  intros r. subst r. unfold notifications, fetches, arm_calls, timers_armed.
  change (wp (async_set_update_error err)
            (fun c' t _ =>
               last_exception c' = Some err
               /\ last_update_success c' = false
               /\ data c' = data c
               /\ count_ev (is_enter m_async_update_listeners) t
                  = (if last_update_success c then 1 else 0)%nat
               /\ count_ev (is_log error) t
                  = (if last_update_success c then 1 else 0)%nat
               /\ count_ev is_await t = O
               /\ count_ev (is_enter m_schedule_refresh) t = O
               /\ count_ev is_call_at t = O
               /\ (last_update_success c = false ->
                   c' = set_last_exception (Some err) c /\ t = [])) c).
  unfold async_set_update_error. repeat wp_step. fields.
  destruct (last_update_success c) eqn:Hl.
  - repeat wp_step. apply wp_async_update_listeners.
    intros c' t o Hc' Ht. unfold core in Hc'; fields.
    repeat split; try congruence; try discriminate; tally.
  - repeat split; try reflexivity; assumption.
Qed.

(** ** The listener registry *)

Lemma dict_pop_last {V} (k : nat) (v : V) (d : dict V) :
  ~ In k (dict_keys d) -> dict_pop k (dict_setitem k v d) = Some (v, d).
Proof.
  unfold dict_setitem.
  induction d as [|[k' v'] d IH]; simpl; intros Hk.
  - rewrite Nat.eqb_refl. reflexivity.
  - destruct (Nat.eqb_spec k k') as [->|Hne]; [tauto|].
    rewrite IH by tauto. reflexivity.
Qed.

Lemma dict_nonempty_setitem {V} (k : nat) (v : V) (d : dict V) :
  dict_nonempty (dict_setitem k v d) = true.
Proof. destruct d; reflexivity. Qed.

Lemma add_listener_appends (c : Coordinator) (update_callback : callback)
    (context : option Ctx) :
  _listeners (final (async_add_listener update_callback context c))
  = _listeners c ++ [(next_handle c, (update_callback, context))].
Proof.
  change (wp (async_add_listener update_callback context)
            (fun c' _ _ =>
               _listeners c'
               = _listeners c
                 ++ [(next_handle c, (update_callback, context))]) c).
  unfold async_add_listener. repeat wp_step.
  destruct (dict_nonempty (_listeners c)); cbn [negb].
  - repeat wp_step. reflexivity.
  - apply wp__schedule_refresh. intros t _ _ _. repeat wp_step.
    destruct (schedules _); reflexivity.
Qed.

Lemma remove_unregistered (c : Coordinator) (h : nat) :
  ~ In h (dict_keys (_listeners c)) ->
  outcome (remove_listener h c) = Raise KeyError
  /\ final (remove_listener h c) = c /\ trace (remove_listener h c) = [].
Proof.
  intros Hnot.
  change (wp (remove_listener h)
            (fun c' t o => o = Raise KeyError /\ c' = c /\ t = []) c).
  unfold remove_listener. repeat wp_step.
  rewrite (dict_pop_None h _ Hnot). wp_step. repeat split; reflexivity.
Qed.

(** X3.  [async_add_listener] appends the listener under a new remove
    handle, which it returns.  It calls [_schedule_refresh] exactly when the
    registry was empty; a later listener leaves the armed timer as it is.
    It never invokes a callback and never awaits the fetch. *)
Theorem add_listener_effect (c : Coordinator) (update_callback : callback)
    (context : option Ctx) :
  let r := async_add_listener update_callback context c in
  outcome r = Ok (next_handle c)
  /\ _listeners (final r)
     = _listeners c ++ [(next_handle c, (update_callback, context))]
  /\ arm_calls r = (if dict_nonempty (_listeners c) then 0 else 1)%nat
  /\ notifications r = O /\ fetches r = O /\ invoked (trace r) = []
  /\ (dict_nonempty (_listeners c) = true ->
      _unsub_refresh (final r) = _unsub_refresh c /\ trace r = []).
Proof.
  intros r. subst r. unfold notifications, fetches, arm_calls.
  change (wp (async_add_listener update_callback context)
            (fun c' t o =>
               o = Ok (next_handle c)
               /\ _listeners c'
                  = _listeners c
                    ++ [(next_handle c, (update_callback, context))]
               /\ count_ev (is_enter m_schedule_refresh) t
                  = (if dict_nonempty (_listeners c) then 0 else 1)%nat
               /\ count_ev (is_enter m_async_update_listeners) t = O
               /\ count_ev is_await t = O /\ invoked t = []
               /\ (dict_nonempty (_listeners c) = true ->
                   _unsub_refresh c' = _unsub_refresh c /\ t = [])) c).
  unfold async_add_listener. repeat wp_step.
  destruct (dict_nonempty (_listeners c)) eqn:Hne; cbn [negb].
  - repeat wp_step. fields. repeat split; reflexivity.
  - apply wp__schedule_refresh. intros t Ht He Hc. repeat wp_step.
    repeat split; try discriminate; try tally.
    + destruct (schedules _); reflexivity.
    + invokes. reflexivity.
Qed.

(** X4.  Invoking a remove handle that is not registered raises KeyError
    and changes nothing.  Invoking a registered one returns, removes that
    listener and no other, and touches the timer only when the registry
    becomes empty: then the timer and the trailing debounce are
    cancelled. *)
Theorem remove_listener_effect (c : Coordinator) (h : nat) :
  let r := remove_listener h c in
  (~ In h (dict_keys (_listeners c)) ->
   outcome r = Raise KeyError /\ final r = c /\ trace r = [])
  /\ (In h (dict_keys (_listeners c)) ->
      List.NoDup (dict_keys (_listeners c)) ->
      outcome r = Ok tt
      /\ (forall k, In k (dict_keys (_listeners (final r)))
                    <-> In k (dict_keys (_listeners c)) /\ k <> h)
      /\ core (final r) = core c
      /\ (dict_nonempty (_listeners (final r)) = true ->
          _unsub_refresh (final r) = _unsub_refresh c /\ trace r = [])
      /\ (dict_nonempty (_listeners (final r)) = false ->
          _unsub_refresh (final r) = None
          /\ pending (_debounced_refresh (final r)) = false)).
Proof.
  intros r. subst r. split.
  - apply remove_unregistered.
  - intros Hin Hnd.
    destruct (dict_pop_Some h (_listeners c) Hin)
      as (v & rest & Hpop & Hrest).
    destruct (Hrest Hnd) as [_ Hiff].
    change (wp (remove_listener h)
              (fun c' t o =>
                 o = Ok tt
                 /\ (forall k, In k (dict_keys (_listeners c'))
                               <-> In k (dict_keys (_listeners c)) /\ k <> h)
                 /\ core c' = core c
                 /\ (dict_nonempty (_listeners c') = true ->
                     _unsub_refresh c' = _unsub_refresh c /\ t = [])
                 /\ (dict_nonempty (_listeners c') = false ->
                     _unsub_refresh c' = None
                     /\ pending (_debounced_refresh c') = false)) c).
    unfold remove_listener. repeat wp_step. rewrite Hpop. cbv beta iota.
    repeat wp_step. destruct (dict_nonempty rest) eqn:Hne; cbn [negb].
    + fields. rewrite Hne.
      split; [reflexivity|]. split; [exact Hiff|]. split; [reflexivity|].
      split; [intros _; split; reflexivity | discriminate].
    + apply wp__unschedule_refresh. intros t Ht. fields. rewrite Hne.
      split; [reflexivity|]. split; [exact Hiff|]. split; [reflexivity|].
      split; [discriminate | intros _; split; reflexivity].
Qed.

(** X5.  Registering a listener and then invoking the handle returned
    restores the registry and the contexts; invoking the handle a second
    time raises KeyError. *)
Theorem add_then_remove (c : Coordinator) (update_callback : callback)
    (context : option Ctx) :
  handles_fresh c ->
  let r1 := async_add_listener update_callback context c in
  let r2 := remove_listener (next_handle c) (final r1) in
  let r3 := remove_listener (next_handle c) (final r2) in
  outcome r2 = Ok tt
  /\ _listeners (final r2) = _listeners c
  /\ async_contexts (final r2) = async_contexts c
  /\ outcome r3 = Raise KeyError.
Proof.
  intros [Hnd Hlt] r1 r2 r3.
  assert (Hfresh : ~ In (next_handle c) (dict_keys (_listeners c))).
  { intros Hin. specialize (Hlt _ Hin). lia. }
  pose proof (add_listener_appends c update_callback context) as Hl1.
  fold r1 in Hl1.
  assert (H2 : outcome r2 = Ok tt /\ _listeners (final r2) = _listeners c).
  { subst r2.
    change (wp (remove_listener (next_handle c))
              (fun c' _ o => o = Ok tt /\ _listeners c' = _listeners c)
              (final r1)).
    apply wp_remove_listener. rewrite Hl1.
    change (_listeners c ++ [(next_handle c, (update_callback, context))])
      with (dict_setitem (next_handle c) (update_callback, context)
              (_listeners c)).
    rewrite (dict_pop_last _ _ _ Hfresh).
    intros c' t Hl _. split; [reflexivity | exact Hl]. }
  destruct H2 as [Ho2 Hl2]. split; [exact Ho2|]. split; [exact Hl2|].
  split; [unfold async_contexts; rewrite Hl2; reflexivity|].
  subst r3. apply remove_unregistered. rewrite Hl2. exact Hfresh.
Qed.

(** X6.  [async_contexts] yields the contexts of the listeners in
    registration order and skips the listeners registered without one:
    registering with a context appends it, registering without one changes
    nothing. *)
Theorem contexts_after_add (c : Coordinator) (update_callback : callback)
    (context : option Ctx) :
  async_contexts (final (async_add_listener update_callback context c))
  = async_contexts c
    ++ match context with Some x => [x] | None => [] end.
Proof.
  pose proof (add_listener_appends c update_callback context) as Hl.
  unfold async_contexts. rewrite Hl. unfold dict_values.
  rewrite map_app, omap_app. cbn. destruct context; reflexivity.
Qed.

(** ** Shutdown *)

Lemma async_shutdown_again (s : Coordinator) :
  _shutdown_requested s = true -> _unsub_refresh s = None ->
  _unsub_shutdown s = false ->
  inert (_debounced_refresh s) = true ->
  pending (_debounced_refresh s) = false ->
  final (async_shutdown s) = s /\ trace (async_shutdown s) = [].
Proof.
  destruct s as [hs dbg nm ui uis sd ce au d ms ls nh ur us lus le
                   [cd im pe wi ine]].
  cbn [_shutdown_requested _unsub_refresh _unsub_shutdown _debounced_refresh
       inert pending].
  intros -> -> -> -> ->. split; reflexivity.
Qed.

Lemma async_shutdown_run (c : Coordinator) :
  let r1 := async_shutdown c in
  _shutdown_requested (final r1) = true
  /\ _unsub_refresh (final r1) = None
  /\ _unsub_shutdown (final r1) = false
  /\ inert (_debounced_refresh (final r1)) = true
  /\ pending (_debounced_refresh (final r1)) = false
  /\ data (final r1) = data c
  /\ last_update_success (final r1) = last_update_success c
  /\ _listeners (final r1) = _listeners c
  /\ count_ev is_cancel (trace r1)
     = (match _unsub_refresh c with Some _ => 1 | None => 0 end)%nat
  /\ count_ev is_unsub_shutdown (trace r1)
     = (if _unsub_shutdown c then 1 else 0)%nat
  /\ fetches r1 = O /\ notifications r1 = O.
Proof.
  intros r1. subst r1. unfold fetches, notifications.
  change (wp async_shutdown
            (fun c' t _ =>
               _shutdown_requested c' = true
               /\ _unsub_refresh c' = None
               /\ _unsub_shutdown c' = false
               /\ inert (_debounced_refresh c') = true
               /\ pending (_debounced_refresh c') = false
               /\ data c' = data c
               /\ last_update_success c' = last_update_success c
               /\ _listeners c' = _listeners c
               /\ count_ev is_cancel t
                  = (match _unsub_refresh c with
                     | Some _ => 1 | None => 0 end)%nat
               /\ count_ev is_unsub_shutdown t
                  = (if _unsub_shutdown c then 1 else 0)%nat
               /\ count_ev is_await t = O
               /\ count_ev (is_enter m_async_update_listeners) t = O) c).
  unfold async_shutdown, _async_unsub_refresh, _async_unsub_shutdown,
    Debouncer_async_shutdown.
  repeat wp_step. fields.
  destruct (_unsub_refresh c) eqn:Hur; repeat wp_step; fields;
    destruct (_unsub_shutdown c) eqn:Hus; repeat wp_step; fields;
    rewrite ?Hur, ?Hus; repeat split; reflexivity.
Qed.

(** X7.  [async_shutdown] sets the shutdown flag, cancels the armed timer
    and unsubscribes the stop listener if there is one; it leaves the data,
    the success flag and the registered listeners as they are, awaits no
    fetch and notifies nobody.  A second [async_shutdown] changes nothing
    and calls nothing. *)
Theorem shutdown_idempotent (c : Coordinator) :
  let r1 := async_shutdown c in
  let r2 := async_shutdown (final r1) in
  _shutdown_requested (final r1) = true
  /\ _unsub_refresh (final r1) = None
  /\ _unsub_shutdown (final r1) = false
  /\ data (final r1) = data c
  /\ last_update_success (final r1) = last_update_success c
  /\ _listeners (final r1) = _listeners c
  /\ count_ev is_cancel (trace r1)
     = (match _unsub_refresh c with Some _ => 1 | None => 0 end)%nat
  /\ count_ev is_unsub_shutdown (trace r1)
     = (if _unsub_shutdown c then 1 else 0)%nat
  /\ fetches r1 = O /\ notifications r1 = O
  /\ final r2 = final r1 /\ trace r2 = [].
Proof.
  intros r1 r2.
  destruct (async_shutdown_run c)
    as (Hs & Hu & Hus & Hi & Hp & Hd & Hl & Hls & Hc & Hcs & Hf & Hn).
  fold r1 in Hs, Hu, Hus, Hi, Hp, Hd, Hl, Hls, Hc, Hcs, Hf, Hn.
  destruct (async_shutdown_again (final r1) Hs Hu Hus Hi Hp) as [Hfin Htr].
  repeat split; assumption.
Qed.

(** X8.  [async_register_shutdown] raises RuntimeError and registers
    nothing for a coordinator tied to a config entry.  Otherwise it
    registers a stop listener, which the next [async_shutdown] unsubscribes
    once. *)
Theorem register_shutdown_effect (c : Coordinator) :
  let r := async_register_shutdown c in
  (config_entry c <> None ->
   outcome r = Raise (RuntimeError stop_message)
   /\ final r = c /\ trace r = [])
  /\ (config_entry c = None ->
      outcome r = Ok tt
      /\ trace r = [ListenOnceStop]
      /\ _unsub_shutdown (final r) = true
      /\ count_ev is_unsub_shutdown (trace (async_shutdown (final r)))
         = 1%nat).
Proof.
  intros r. subst r. unfold async_register_shutdown, bind, get.
  cbn [final trace outcome]. split.
  - intros Hce. destruct (config_entry c); [|congruence].
    repeat split; reflexivity.
  - intros Hce. rewrite Hce. cbn.
    split; [reflexivity|]. split; [reflexivity|]. split; [reflexivity|].
    destruct (async_shutdown_run (set_unsub_shutdown true c))
      as (_ & _ & _ & _ & _ & _ & _ & _ & _ & Hcount & _).
    exact Hcount.
Qed.

(** ** The update interval *)

(** X9.  The setter of [update_interval] keeps the value given but treats
    a zero interval like none: [_update_interval_seconds] becomes [None],
    and from then on [_schedule_refresh] changes nothing and hands no timer
    to the loop.  A non-zero interval is taken over as it is.  The setter
    itself never touches a timer that is armed. *)
Theorem falsy_interval_disables_scheduling (c : Coordinator)
    (value : option Z) :
  let c' := final (update_interval_setter value c) in
  _update_interval c' = value
  /\ _unsub_refresh c' = _unsub_refresh c
  /\ (value = None \/ value = Some 0 ->
      _update_interval_seconds c' = None
      /\ final (_schedule_refresh c') = c'
      /\ timers_armed (_schedule_refresh c') = O)
  /\ (forall v, value = Some v -> v <> 0 ->
      _update_interval_seconds c' = Some v).
Proof.
  intros c'. subst c'. unfold update_interval_setter, modify.
  cbn [final]. fields. split; [reflexivity|]. split; [reflexivity|]. split.
  - intros Hv.
    assert (Hn : total_seconds_if value = None)
      by (destruct Hv as [-> | ->]; reflexivity).
    rewrite Hn. split; [reflexivity|].
    unfold timers_armed, _schedule_refresh, bind, emit, get.
    cbn [final trace outcome]. fields. cbn [final trace outcome ret].
    split; reflexivity.
  - intros v -> Hv. unfold total_seconds_if.
    destruct (Z.eqb_spec v 0); [contradiction | reflexivity].
Qed.

(** ** While the host stops *)

(** X10.  Once the host is stopping, a timer fire of a coordinator that is
    not shut down returns without awaiting the fetch, notifies nobody and
    leaves no timer armed, whereas [async_refresh] still awaits the fetch
    once; neither calls [_schedule_refresh]. *)
Theorem refresh_while_host_stops (c : Coordinator)
    (update_method : option (fetch_result (option T))) :
  is_stopping (hass c) = true ->
  _shutdown_requested c = false ->
  let fired := _handle_refresh_interval update_method c in
  let manual := async_refresh update_method c in
  outcome fired = Ok tt
  /\ fetches fired = O /\ notifications fired = O /\ arm_calls fired = O
  /\ _unsub_refresh (final fired) = None
  /\ fetches manual = 1%nat /\ arm_calls manual = O.
Proof.
  intros Hstop Hsd fired manual.
  assert (Hf : outcome fired = Ok tt
               /\ fetches fired = O /\ notifications fired = O
               /\ arm_calls fired = O /\ _unsub_refresh (final fired) = None).
  { subst fired. unfold fetches, notifications, arm_calls.
    change (wp (_handle_refresh_interval update_method)
              (fun c' t o =>
                 o = Ok tt
                 /\ count_ev is_await t = O
                 /\ count_ev (is_enter m_async_update_listeners) t = O
                 /\ count_ev (is_enter m_schedule_refresh) t = O
                 /\ _unsub_refresh c' = None) c).
    unfold _handle_refresh_interval. do 2 wp_step.
    apply wp__async_refresh_aborted.
    - unfold aborts. fields. rewrite Hstop. apply orb_true_r.
    - intros t Ht. unfold entered. fields. repeat split; tally. }
  destruct Hf as (H1 & H2 & H3 & H4 & H5).
  repeat split; try assumption.
  - subst manual. unfold fetches, async_refresh.
    apply (wp__async_refresh update_method true false false false
             (fun _ t _ => count_ev is_await t = 1%nat) c).
    + unfold aborts. rewrite Hsd. reflexivity.
    + intros c' t o F. exact (cf_fetches _ _ _ _ _ _ _ F).
  - subst manual. unfold arm_calls, async_refresh.
    apply (wp__async_refresh update_method true false false false
             (fun _ t _ => count_ev (is_enter m_schedule_refresh) t = O) c).
    + unfold aborts. rewrite Hsd. reflexivity.
    + intros c' t o F. rewrite (cf_arm_calls _ _ _ _ _ _ _ F).
      unfold rearms. rewrite Hstop.
      destruct (auth_failed_of _), (dict_nonempty _); reflexivity.
Qed.

(** ** What failures and successes leave alone *)

Lemma inv_data_kept x (o : op) :
  is_success o = false ->
  inv (fun c => data c = x) (fun _ => false) (exec o).
Proof.
  destruct o; try discriminate; unfold is_success, fetch_fails; intros Hf;
    inv_auto; fields_solve; try absurd_guard.
Qed.

Lemma inv_exception_kept x (o : op) :
  is_failure o = false ->
  inv (fun c => last_exception c = x) (fun _ => false) (exec o).
Proof.
  destruct o; try discriminate; unfold is_failure, fetch_fails; intros Hf;
    inv_auto; fields_solve; try absurd_guard.
Qed.

(** X11.  [data] is overwritten only by a fetch that returns or by
    [async_set_updated_data]: over any sequence of other triggers (failing
    fetches of every kind, whether their error is recorded or propagates,
    injected errors, listener changes, shutdown) it keeps its value. *)
Theorem data_kept_without_success (c : Coordinator) (ops : list op) :
  forallb (fun o => negb (is_success o)) ops = true ->
  data (final (exec_all ops c)) = data c.
Proof.
  intros Hops.
  apply (inv_exec_all (fun c' => data c' = data c) (fun _ => false) ops);
    [|reflexivity].
  intros o Ho. apply inv_data_kept.
  rewrite forallb_forall in Hops. specialize (Hops o Ho).
  destruct (is_success o); [discriminate | reflexivity].
Qed.

(** X12.  [last_exception] is never reset: over any sequence of triggers
    without a failing fetch or an injected error it keeps its value; a
    fetch that returns after a failure leaves the error of that failure in
    place. *)
Theorem exception_kept_by_success (c : Coordinator) (ops : list op) :
  forallb (fun o => negb (is_failure o)) ops = true ->
  last_exception (final (exec_all ops c)) = last_exception c.
Proof.
  intros Hops.
  apply (inv_exec_all (fun c' => last_exception c' = last_exception c)
           (fun _ => false) ops); [|reflexivity].
  intros o Ho. apply inv_exception_kept.
  rewrite forallb_forall in Hops. specialize (Hops o Ho).
  destruct (is_failure o); [discriminate | reflexivity].
Qed.

(** ** What a cycle logs *)

Lemma logged_app (t1 t2 : list event) :
  logged (t1 ++ t2) = logged t1 ++ logged t2.
Proof.
  induction t1 as [|ev t1 IH]; [reflexivity|].
  destruct ev as [[] msg| | | | | | | |]; cbn [app logged]; rewrite IH;
    reflexivity.
Qed.

Lemma only_logged (q : event -> bool) (t : list event) :
  (forall how msg, q (Log how msg) = true -> how = debug) ->
  only q t -> logged t = [].
Proof.
  intros Hq. unfold only. induction t as [|ev t IH]; [reflexivity|].
  cbn [forallb]. intros Hall. apply andb_prop in Hall as [Hev Ht].
  destruct ev as [how msg| | | | | | | |]; cbn [logged]; auto.
  rewrite (Hq how msg Hev). auto.
Qed.

Lemma wp_try_body_logged fetched lf roa roe Q c :
  (forall t, logged t = cycle_log (last_update_success c) lf fetched ->
     Q (settle fetched c) t (raised_or_ok (propagated fetched roa roe))) ->
  wp (emit AwaitUpdate ;;
      match fetched with
      | Returns value => modify (set_data value) ;; else_
      | Raises err => except_ err lf roa roe
      end) Q c.
Proof.
  intros HQ. unfold settle, propagated, cycle_log, failure_message in HQ.
  destruct c as [hs dbg nm ui uis sd ce au d ms ls nh ur us lus le db].
  fields. do 2 wp_step.
  destruct fetched as [value|err].
  - unfold else_. do 2 wp_step. do 2 wp_step. fields.
    destruct lus; repeat wp_step; cbn [settled_success settled_data
      settled_exception raised_or_ok] in HQ; apply HQ; reflexivity.
  - unfold except_, first_failure.
    destruct err; cbn [matching_clause isinstance settled_success
      settled_data settled_exception raised_or_ok reason_is] in *;
      repeat (first [wp_step | progress fields]);
      destruct lus; repeat (first [wp_step | progress fields]);
      try (destruct lf; repeat (first [wp_step | progress fields]));
      try (destruct roa; repeat (first [wp_step | progress fields]));
      try (destruct roe; repeat (first [wp_step | progress fields]));
      try (destruct ce; cbn [bool_decide decide_rel is_Some_dec];
           repeat (first [wp_step | progress fields]));
      try (apply HQ; reflexivity).
Qed.

(** X13.  What a cycle that reaches the fetch logs above debug level: a
    fetch that returns logs the recovery, at info level, exactly when the
    success flag was cleared; a failure recovered by one of the named
    clauses logs once through [logger.error], with the message of the first
    clause that matches, exactly when the flag was set and [log_failures]
    is on; any other exception is logged through [logger.exception] on
    every occurrence, whatever the flag and [log_failures] are;
    NotImplementedError is not logged. *)
Theorem cycle_logging (c : Coordinator)
    (update_method : option (fetch_result (option T)))
    (log_failures raise_on_auth_failed scheduled raise_on_entry_error : bool) :
  aborts scheduled c = false ->
  logged (trace (_async_refresh update_method log_failures
                   raise_on_auth_failed scheduled raise_on_entry_error c))
  = cycle_log (last_update_success c) log_failures
      (_async_update_data update_method).
Proof.
  unfold aborts. intros Hg.
  change (wp (_async_refresh update_method log_failures raise_on_auth_failed
                scheduled raise_on_entry_error)
            (fun _ t _ =>
               logged t = cycle_log (last_update_success c) log_failures
                            (_async_update_data update_method)) c).
  unfold _async_refresh. wp_step.
  apply wp__async_unsub_refresh. intros t0 Ht0.
  unfold Debouncer_async_cancel. do 2 wp_step. do 2 wp_step.
  fields. rewrite Hg. cbv iota zeta.
  set (fetched := _async_update_data update_method) in *.
  wp_step. wp_step. apply wp_try_body_logged. fields. intros t1 Hl1.
  apply wp_finally_block. intros c2 t2 Ht2 _ _ _ _.
  assert (H0 : logged t0 = [])
    by (apply (only_logged is_cancel); [intros; discriminate | exact Ht0]).
  assert (H2 : logged t2 = []).
  { apply (only_logged is_finally_event); [|exact Ht2].
    intros [] msg; cbn; congruence. }
  assert (Hdone : forall t3, logged t3 = [] ->
            logged (t0 ++ [] ++ [] ++ (t1 ++ t2) ++ t3)
            = cycle_log (last_update_success c) log_failures fetched).
  { intros t3 H3. rewrite !logged_app, H0, H2, H3, Hl1. cbn [logged app].
    rewrite !app_nil_r. reflexivity. }
  destruct (propagated fetched raise_on_auth_failed raise_on_entry_error);
    cbn [raised_or_ok]; cbv iota.
  - rewrite <- (Hdone [] eq_refl), !app_nil_r. reflexivity.
  - do 2 wp_step.
    destruct (negb (last_update_success c2) && negb (last_update_success c)).
    + wp_step. apply Hdone. reflexivity.
    + wp_step.
      destruct (always_update c2
                || negb (Bool.eqb (last_update_success c2)
                           (last_update_success c))
                || bool_decide (data c <> data c2)).
      * apply wp_async_update_listeners. intros c3 t3 o3 _ Ht3.
        apply Hdone. cbn [app logged].
        apply (only_logged is_callback_event); [intros; discriminate|].
        exact Ht3.
      * apply Hdone. reflexivity.
Qed.

(** ** Invariants of the reachable states *)

Lemma count_ev_none (t : list event) : count_ev (fun _ => false) t = O.
Proof. induction t as [|ev t IH]; [reflexivity | exact IH]. Qed.

(** An invariant that selects no event is a property of the final state. *)
Lemma inv_of_wp {A} (P : Coordinator -> Prop) (m : M A) :
  (forall c, P c -> wp m (fun c' _ _ => P c') c) ->
  inv P (fun _ => false) m.
Proof.
  intros H c HP. split; [exact (H c HP) | apply count_ev_none].
Qed.

Lemma inv_cause_except (err : exception) (lf roa roe : bool) :
  inv failure_has_cause (fun _ => false) (except_ err lf roa roe).
Proof.
  apply inv_of_wp. intros c _. unfold failure_has_cause.
  destruct c as [hs dbg nm ui uis sd ce au d ms ls nh ur us lus le db].
  unfold except_, first_failure.
  destruct err; cbn [matching_clause isinstance reason_is];
    repeat (first [wp_step | progress fields]);
    destruct lus; repeat (first [wp_step | progress fields]);
    try (destruct lf; repeat (first [wp_step | progress fields]));
    try (destruct roa; repeat (first [wp_step | progress fields]));
    try (destruct roe; repeat (first [wp_step | progress fields]));
    try (destruct ce; cbn [bool_decide decide_rel is_Some_dec];
         repeat (first [wp_step | progress fields]));
    intros; discriminate.
Qed.

Lemma inv_cause_set_update_error (err : exception) :
  inv failure_has_cause (fun _ => false) (async_set_update_error err).
Proof.
  apply inv_of_wp. intros c _. unfold failure_has_cause.
  unfold async_set_update_error. repeat wp_step. fields.
  destruct (last_update_success c).
  - repeat wp_step. apply wp_async_update_listeners.
    intros c' t o Hc' _. unfold core in Hc'; fields.
    intros _. replace (last_exception c') with (Some err) by congruence.
    discriminate.
  - intros _. discriminate.
Qed.

Ltac unfold_method_cause :=
  progress unfold exec, _async_refresh, else_,
    _handle_refresh_interval, async_refresh, async_request_refresh,
    async_config_entry_first_refresh,
    async_set_updated_data, async_add_listener, async_update_listeners,
    async_shutdown, async_register_shutdown, update_interval_setter, call,
    remove_listener, _schedule_refresh, _unschedule_refresh,
    _async_unsub_refresh, _async_unsub_shutdown, Debouncer_async_call,
    Debouncer_on_cooldown_expiry, Debouncer_async_cancel,
    Debouncer_async_shutdown.

Lemma inv_failure_has_cause (o : op) :
  inv failure_has_cause (fun _ => false) (exec o).
Proof.
  destruct o;
    repeat (first [ apply inv_cause_except
                  | apply inv_cause_set_update_error
                  | inv_step | unfold_method_cause ]);
    unfold failure_has_cause in *; fields;
    solve [assumption | intros; discriminate].
Qed.

(** X14.  In every state a coordinator reaches, a cleared
    [last_update_success] comes with a recorded [last_exception]: whoever
    reads a failure finds its error. *)
Theorem failure_has_cause_when_reachable (c : Coordinator) :
  reachable c -> last_update_success c = false -> last_exception c <> None.
Proof.
  intros (h & dbg & nm & ui & deb & au & ce & en & ops & ->).
  apply (inv_exec_all failure_has_cause (fun _ => false) ops).
  - intros o _. apply inv_failure_has_cause.
  - unfold failure_has_cause. cbn [__init__ last_update_success].
    discriminate.
Qed.

Lemma inv_listener_remove (h : nat) :
  inv timer_needs_listener (fun _ => false) (remove_listener h).
Proof.
  apply inv_of_wp. intros c HP. unfold timer_needs_listener in *.
  unfold remove_listener. repeat wp_step.
  destruct (dict_pop h (_listeners c)) as [[v rest]|]; cbv beta iota.
  - repeat wp_step. destruct (dict_nonempty rest) eqn:Hne; cbn [negb].
    + fields. congruence.
    + apply wp__unschedule_refresh. intros t _. fields. reflexivity.
  - wp_step. exact HP.
Qed.

Lemma inv_listener_add (update_callback : callback) (context : option Ctx) :
  inv timer_needs_listener (fun _ => false)
    (async_add_listener update_callback context).
Proof.
  apply inv_of_wp. intros c _. unfold timer_needs_listener.
  pose proof (add_listener_appends c update_callback context) as Hl.
  unfold wp. rewrite Hl.
  change (_listeners c ++ [(next_handle c, (update_callback, context))])
    with (dict_setitem (next_handle c) (update_callback, context)
            (_listeners c)).
  rewrite dict_nonempty_setitem. discriminate.
Qed.

Lemma wp_guarded_schedule (c : Coordinator) :
  dict_nonempty (_listeners c) = true ->
  wp _schedule_refresh (fun c' _ _ => dict_nonempty (_listeners c') = true) c.
Proof.
  intros Hne. apply wp__schedule_refresh. intros t _ _ _.
  destruct (schedules c); exact Hne.
Qed.

Lemma inv_listener_schedule (cond : Coordinator -> bool) :
  (forall c, cond c = true -> dict_nonempty (_listeners c) = true) ->
  inv timer_needs_listener (fun _ => false)
    (c <- get ;; when (cond c) _schedule_refresh).
Proof.
  intros Hcond. apply inv_of_wp. intros c HP. do 2 wp_step. wp_step.
  destruct (cond c) eqn:Hc; [|exact HP].
  generalize (wp_guarded_schedule c (Hcond c Hc)). unfold wp.
  unfold timer_needs_listener. congruence.
Qed.

Lemma inv_listener_schedule_then {A} (cond : Coordinator -> bool)
    (k : M A) :
  (forall c, cond c = true -> dict_nonempty (_listeners c) = true) ->
  inv timer_needs_listener (fun _ => false) k ->
  inv timer_needs_listener (fun _ => false)
    (c <- get ;; when (cond c) _schedule_refresh ;; k).
Proof.
  intros Hcond Hk.
  assert (H : inv timer_needs_listener (fun _ => false)
                (_ <- (c <- get ;; when (cond c) _schedule_refresh) ;; k)).
  { apply inv_bind; [apply inv_listener_schedule, Hcond | intros _; exact Hk]. }
  intros c HP. specialize (H c HP). revert H. unfold bind, get.
  cbn [final trace outcome]. rewrite !app_nil_l.
  destruct (outcome (when (cond c) _schedule_refresh c)); cbn; exact (fun H => H).
Qed.

Ltac unfold_method_listener :=
  progress unfold exec, _async_refresh, except_, else_, first_failure,
    _handle_refresh_interval, async_refresh, async_request_refresh,
    async_config_entry_first_refresh, async_set_update_error,
    async_set_updated_data, async_update_listeners,
    async_shutdown, async_register_shutdown, update_interval_setter, call,
    _unschedule_refresh,
    _async_unsub_refresh, _async_unsub_shutdown, Debouncer_async_call,
    Debouncer_on_cooldown_expiry, Debouncer_async_cancel,
    Debouncer_async_shutdown.

Lemma inv_timer_needs_listener (o : op) :
  inv timer_needs_listener (fun _ => false) (exec o).
Proof.
  destruct o;
    repeat (first [ apply inv_listener_remove
                  | apply inv_listener_add
                  | apply inv_listener_schedule;
                    [intros ? Hcond;
                     repeat (apply andb_prop in Hcond as [Hcond ?]);
                     assumption]
                  | apply inv_listener_schedule_then;
                    [intros ? Hcond; exact Hcond|]
                  | inv_step | unfold_method_listener ]);
    unfold timer_needs_listener in *; fields;
    solve [assumption | reflexivity | intros; reflexivity].
Qed.

(** X15.  A timer is armed only while a listener is registered: in every
    state a coordinator reaches, an empty registry comes with no armed
    timer. *)
Theorem timer_needs_listener_when_reachable (c : Coordinator) :
  reachable c -> _listeners c = [] -> _unsub_refresh c = None.
Proof.
  intros (h & dbg & nm & ui & deb & au & ce & en & ops & ->) Hl.
  apply (inv_exec_all timer_needs_listener (fun _ => false) ops).
  - intros o _. apply inv_timer_needs_listener.
  - unfold timer_needs_listener. reflexivity.
  - rewrite Hl. reflexivity.
Qed.

(** ** One timer at a time *)

Lemma timer_after_app (b : bool) (t1 t2 : list event) :
  timer_after b (t1 ++ t2)
  = match timer_after b t1 with
    | Some b' => timer_after b' t2
    | None => None
    end.
Proof.
  revert b. induction t1 as [|ev t1 IH]; intros b; [reflexivity|].
  destruct ev, b; cbn [app timer_after]; auto.
Qed.

Lemma timer_ok_ret {A} (a : A) : timer_ok (ret a).
Proof. intros c. reflexivity. Qed.

Lemma timer_ok_raise {A} e : timer_ok (@raise A e).
Proof. intros c. reflexivity. Qed.

Lemma timer_ok_emit ev : is_timer_event ev = false -> timer_ok (emit ev).
Proof. intros Hev c. destruct ev; try discriminate; reflexivity. Qed.

Lemma timer_ok_modify f :
  (forall c, armed (f c) = armed c) -> timer_ok (modify f).
Proof. intros Hf c. cbn. rewrite Hf. reflexivity. Qed.

Lemma timer_ok_bind {A B} (m : M A) (k : A -> M B) :
  timer_ok m -> (forall a, timer_ok (k a)) -> timer_ok (bind m k).
Proof.
  intros Hm Hk c. unfold bind. specialize (Hm c).
  destruct (outcome (m c)) as [a|e]; cbn [final trace outcome].
  - rewrite timer_after_app, Hm. apply Hk.
  - exact Hm.
Qed.

Lemma timer_ok_get {B} (k : Coordinator -> M B) :
  (forall c0, timer_ok (k c0)) -> timer_ok (bind get k).
Proof.
  intros Hk c. unfold bind, get. cbn [final trace outcome]. apply Hk.
Qed.

Lemma timer_ok_when (b : bool) (m : M unit) :
  timer_ok m -> timer_ok (when b m).
Proof. destruct b; [exact (fun H => H) | intros _; apply timer_ok_ret]. Qed.

Lemma timer_ok_try_finally {A} (m : M A) (f : M unit) :
  timer_ok m -> timer_ok f -> timer_ok (try_finally m f).
Proof.
  intros Hm Hf c. unfold try_finally. cbn [final trace outcome].
  rewrite timer_after_app, Hm. apply Hf.
Qed.

Lemma timer_ok_for_each {A} (xs : list A) (body : A -> M unit) :
  (forall x, timer_ok (body x)) -> timer_ok (for_each xs body).
Proof.
  intros Hb. induction xs as [|x xs IH]; cbn [for_each].
  - apply timer_ok_ret.
  - apply timer_ok_bind; [apply Hb | intros _; exact IH].
Qed.

Lemma timer_ok_job {A} (m : M A) : timer_ok m -> timer_ok (job m).
Proof. intros Hm c. exact (Hm c). Qed.

Lemma timer_ok_unsub_refresh : timer_ok _async_unsub_refresh.
Proof.
  intros c. unfold _async_unsub_refresh, bind, get, armed.
  cbn [final trace outcome].
  destruct (_unsub_refresh c) eqn:Hu; cbn; [reflexivity|].
  rewrite Hu. reflexivity.
Qed.

Lemma timer_ok_schedule_refresh : timer_ok _schedule_refresh.
Proof.
  intros c.
  change (wp _schedule_refresh
            (fun c' t _ => timer_after (armed c) t = Some (armed c')) c).
  unfold _schedule_refresh. do 4 wp_step.
  destruct (_update_interval_seconds c) as [i|];
    [destruct (polling_disabled c)|]; try (wp_step; reflexivity).
  wp_step. unfold wp at 1.
  pose proof (timer_ok_unsub_refresh c) as Hu.
  assert (Hs : armed (final (_async_unsub_refresh c)) = false).
  { unfold _async_unsub_refresh, bind, get, armed.
    cbn [final trace outcome].
    destruct (_unsub_refresh c) eqn:Hur; cbn; [reflexivity|].
    rewrite Hur. reflexivity. }
  assert (Ho : outcome (_async_unsub_refresh c) = Ok tt).
  { unfold _async_unsub_refresh, bind, get. cbn [final trace outcome].
    destruct (_unsub_refresh c); reflexivity. }
  rewrite Ho. repeat wp_step. cbn [app timer_after].
  rewrite timer_after_app, Hu, Hs. reflexivity.
Qed.

Ltac timer_step :=
  match goal with
  | |- timer_ok _async_unsub_refresh => apply timer_ok_unsub_refresh
  | |- timer_ok _schedule_refresh => apply timer_ok_schedule_refresh
  | |- timer_ok (bind get _) => apply timer_ok_get; intros ?
  | |- timer_ok (bind _ _) => apply timer_ok_bind; [|intros ?]
  | |- timer_ok (ret _) => apply timer_ok_ret
  | |- timer_ok (raise _) => apply timer_ok_raise
  | |- timer_ok (emit _) => apply timer_ok_emit; reflexivity
  | |- timer_ok (modify _) => apply timer_ok_modify; intros ?; reflexivity
  | |- timer_ok (modify_debouncer _) =>
      apply timer_ok_modify; intros ?; reflexivity
  | |- timer_ok (when _ _) => apply timer_ok_when
  | |- timer_ok (try_finally _ _) => apply timer_ok_try_finally
  | |- timer_ok (for_each _ _) => apply timer_ok_for_each; intros ?
  | |- timer_ok (job _) => apply timer_ok_job
  | |- timer_ok (if ?b then _ else _) => destruct b
  | |- timer_ok (match ?x with Some _ => _ | None => _ end) => destruct x
  | |- timer_ok (match ?x with Returns _ => _ | Raises _ => _ end) =>
      destruct x
  | |- timer_ok (match ?x with (_, _) => _ end) => destruct x
  | |- timer_ok (match ?x with
                 | ExceptTimeout => _ | ExceptClientError => _
                 | ExceptURLError => _ | ExceptUpdateFailed => _
                 | ExceptConfigEntryError => _
                 | ExceptConfigEntryAuthFailed => _
                 | ExceptNotImplementedError => _ | ExceptException => _
                 end) => destruct x
  end.

Ltac unfold_method_timer :=
  progress unfold exec, _async_refresh, except_, else_, first_failure,
    async_refresh, async_request_refresh,
    async_config_entry_first_refresh, async_set_update_error,
    async_set_updated_data, async_add_listener, async_update_listeners,
    async_shutdown, async_register_shutdown, update_interval_setter, call,
    remove_listener, _unschedule_refresh,
    _async_unsub_shutdown, Debouncer_async_call,
    Debouncer_on_cooldown_expiry, Debouncer_async_cancel,
    Debouncer_async_shutdown.

Ltac timer_auto := repeat (first [timer_step | unfold_method_timer]).

Lemma timer_ok__async_refresh
    (update_method : option (fetch_result (option T)))
    (lf roa sch roe : bool) :
  timer_ok (_async_refresh update_method lf roa sch roe).
Proof. timer_auto. Qed.

(** X16.  The coordinator keeps one timer at a time.  Replaying the calls
    a trigger makes to the event loop, from whether a timer was outstanding
    before it (none, when the trigger is that timer firing): [call_at] is
    called only with no timer outstanding, [cancel] only on an outstanding
    one, and when the trigger is done [_unsub_refresh] holds a handle
    exactly when a timer is outstanding. *)
Theorem one_timer_outstanding (c : Coordinator) (o : op) :
  let before := match o with OpTimerFire _ => false | _ => armed c end in
  timer_after before (trace (exec o c)) = Some (armed (final (exec o c))).
Proof.
  destruct o;
    try (cbv zeta; revert c;
         match goal with |- forall c, timer_after (armed c) (trace (?m c)) = _
           => change (timer_ok m) end;
         timer_auto; fail).
  cbv zeta. cbn [exec]. unfold _handle_refresh_interval, bind, modify.
  cbn [final trace outcome app].
  exact (timer_ok__async_refresh update_method true false true false
           (set_unsub_refresh None c)).
Qed.

(** ** The time of the last success *)

(** X17.  [TimestampDataUpdateCoordinator] stamps
    [last_update_success_time] only after a cycle that returns with
    [last_update_success] set.  A fetch that fails, whatever the kind and
    whether or not the error propagates, leaves the stamp as it was; a
    fetch that returns, in a cycle that returns, sets it to the current
    time.  An invocation stopped by the guard stamps too when the flag is
    still set, although nothing was fetched. *)
Theorem timestamp_follows_success (self : TimestampDataUpdateCoordinator)
    (utcnow : Z) (update_method : option (fetch_result (option T)))
    (log_failures raise_on_auth_failed scheduled raise_on_entry_error : bool) :
  let c := as_coordinator self in
  let res := Timestamp__async_refresh utcnow update_method log_failures
               raise_on_auth_failed scheduled raise_on_entry_error self in
  let self' := fst (fst res) in
  (aborts scheduled c = false -> fetch_fails update_method = true ->
   last_update_success_time self' = last_update_success_time self)
  /\ (aborts scheduled c = false -> fetch_fails update_method = false ->
      snd res = Ok tt ->
      last_update_success_time self' = Some utcnow)
  /\ (aborts scheduled c = true ->
      snd res = Ok tt
      /\ fetches (_async_refresh update_method log_failures
                    raise_on_auth_failed scheduled raise_on_entry_error c)
         = O
      /\ last_update_success_time self'
         = if last_update_success c then Some utcnow
           else last_update_success_time self).
Proof.
  intros c res self'. subst res self'. unfold Timestamp__async_refresh.
  fold c.
  set (r := _async_refresh update_method log_failures raise_on_auth_failed
              scheduled raise_on_entry_error c).
  assert (Hfacts : aborts scheduled c = false ->
            cycle_facts c (_async_update_data update_method)
              raise_on_auth_failed raise_on_entry_error
              (final r) (trace r) (outcome r)).
  { intros Hg. subst r.
    apply (wp__async_refresh update_method log_failures raise_on_auth_failed
             scheduled raise_on_entry_error
             (cycle_facts c (_async_update_data update_method)
                raise_on_auth_failed raise_on_entry_error) c Hg).
    intros c' t o F. exact F. }
  split; [|split].
  - intros Hg Hfail. specialize (Hfacts Hg). unfold fetch_fails in Hfail.
    destruct (outcome r) as [[]|e] eqn:Ho; cbn [fst snd
      last_update_success_time]; [|reflexivity].
    pose proof (cf_core _ _ _ _ _ _ _ Hfacts) as Hcore.
    destruct (_async_update_data update_method) as [v|err];
      [discriminate|].
    assert (Hl : last_update_success (final r)
                 = settled_success (last_update_success c) (Raises err))
      by (unfold core, settle in Hcore; fields; congruence).
    rewrite Hl. cbn [settled_success].
    destruct (matching_clause err) eqn:Hcl; try reflexivity.
    assert (Hp : propagated (Raises err) raise_on_auth_failed
                   raise_on_entry_error = Some err)
      by (cbn [propagated]; rewrite Hcl; reflexivity).
    destruct (cf_propagated _ _ _ _ _ _ _ Hfacts err Hp) as (Hr & _).
    congruence.
  - intros Hg Hret. specialize (Hfacts Hg). unfold fetch_fails in Hret.
    destruct (outcome r) as [[]|e] eqn:Ho; cbn [fst snd
      last_update_success_time]; [|discriminate].
    intros _. pose proof (cf_core _ _ _ _ _ _ _ Hfacts) as Hcore.
    destruct (_async_update_data update_method) as [v|err];
      [|discriminate].
    assert (Hl : last_update_success (final r) = true)
      by (unfold core, settle in Hcore; fields; cbn in Hcore; congruence).
    rewrite Hl. reflexivity.
  - intros Hg.
    destruct (aborted_cycle c update_method log_failures
                raise_on_auth_failed scheduled raise_on_entry_error Hg)
      as (Hfin & Ho & Hf & _).
    fold r in Hfin, Ho, Hf. rewrite Ho. cbn [fst snd
      last_update_success_time]. rewrite Hfin.
    split; [reflexivity|]. split; [exact Hf|]. reflexivity.
Qed.

(** ** The guard and the fetch *)

(** X18.  An invocation of [_async_refresh] awaits the fetch once, or not
    at all when the guard stops it (shutdown requested, or a scheduled run
    while the host stops).  A stopped invocation returns, notifies nobody,
    calls no [_schedule_refresh] and leaves data, success flag and error as
    they were; the timer that was armed is cancelled all the same. *)
Theorem fetch_once_unless_stopped (c : Coordinator)
    (update_method : option (fetch_result (option T)))
    (log_failures raise_on_auth_failed scheduled raise_on_entry_error : bool) :
  let r := _async_refresh update_method log_failures raise_on_auth_failed
             scheduled raise_on_entry_error c in
  fetches r = (if aborts scheduled c then 0 else 1)%nat
  /\ (aborts scheduled c = true ->
      outcome r = Ok tt
      /\ notifications r = O /\ arm_calls r = O /\ timers_armed r = O
      /\ data (final r) = data c
      /\ last_update_success (final r) = last_update_success c
      /\ last_exception (final r) = last_exception c
      /\ _listeners (final r) = _listeners c
      /\ _unsub_refresh (final r) = None).
Proof.
  intros r. subst r. unfold fetches, notifications, arm_calls, timers_armed.
  destruct (aborts scheduled c) eqn:Hg.
  - apply (wp__async_refresh_aborted update_method log_failures
             raise_on_auth_failed scheduled raise_on_entry_error
             (fun c' t o =>
                count_ev is_await t = O
                /\ (true = true ->
                    o = Ok tt
                    /\ count_ev (is_enter m_async_update_listeners) t = O
                    /\ count_ev (is_enter m_schedule_refresh) t = O
                    /\ count_ev is_call_at t = O
                    /\ data c' = data c
                    /\ last_update_success c' = last_update_success c
                    /\ last_exception c' = last_exception c
                    /\ _listeners c' = _listeners c
                    /\ _unsub_refresh c' = None)) c Hg).
    intros t Ht. unfold entered. fields.
    split; [tally|]. intros _. repeat split; tally.
  - split; [|discriminate].
    apply (wp__async_refresh update_method log_failures
             raise_on_auth_failed scheduled raise_on_entry_error
             (fun _ t _ => count_ev is_await t = 1%nat) c Hg).
    intros c' t o F. exact (cf_fetches _ _ _ _ _ _ _ F).
Qed.

(** ** From construction to the first timer *)

(** X19.  A coordinator fresh from [__init__] holds no data, reports
    success, has no listener and no timer.  With a non-zero update interval
    and polling not disabled, registering the first listener arms the timer
    for the loop time truncated to whole seconds, plus the jitter drawn,
    plus the interval, without awaiting the fetch. *)
Theorem first_listener_starts_polling (hass0 : HomeAssistant)
    (logger_debug0 : bool) (name0 : string) (interval : Z)
    (request_refresh_debouncer0 : option Debouncer) (always_update0 : bool)
    (current_entry0 : option ConfigEntry) (entropy : Z)
    (update_callback : callback) (context : option Ctx) :
  interval <> 0 ->
  match current_entry0 with
  | Some entry => pref_disable_polling entry = false
  | None => True
  end ->
  let c0 := __init__ hass0 logger_debug0 name0 (Some interval)
              request_refresh_debouncer0 always_update0 current_entry0
              entropy in
  let r := async_add_listener update_callback context c0 in
  data c0 = None /\ last_update_success c0 = true
  /\ _listeners c0 = [] /\ _unsub_refresh c0 = None
  /\ _unsub_refresh (final r)
     = Some (int (loop_time hass0) + _microsecond c0 + interval)
  /\ fetches r = O.
Proof.
  intros Hv Hpoll c0 r.
  split; [reflexivity|]. split; [reflexivity|]. split; [reflexivity|].
  split; [reflexivity|].
  subst r. unfold fetches.
  change (wp (async_add_listener update_callback context)
            (fun c' t _ =>
               _unsub_refresh c'
               = Some (int (loop_time hass0) + _microsecond c0 + interval)
               /\ count_ev is_await t = O) c0).
  unfold async_add_listener. repeat wp_step.
  change (dict_nonempty (_listeners c0)) with false. cbn [negb].
  apply wp__schedule_refresh. intros t Ht _ _. repeat wp_step.
  set (s := set_listeners _ _ c0).
  assert (Hs : schedules s
               = Some (int (loop_time hass0) + _microsecond c0 + interval)).
  { unfold schedules, polling_disabled, next_refresh. subst s c0.
    cbn [__init__ set_listeners _update_interval_seconds config_entry hass
         _microsecond total_seconds_if].
    destruct (Z.eqb_spec interval 0) as [|_]; [contradiction|].
    destruct current_entry0 as [entry|]; [rewrite Hpoll|]; reflexivity. }
  rewrite Hs. fields. split; [reflexivity | tally].
Qed.

End Coordinator.

Arguments Coordinator T Ctx : clear implicits.
Arguments op T Ctx : clear implicits.
Arguments final {T Ctx A} r.
Arguments trace {T Ctx A} r.
Arguments outcome {T Ctx A} r.

(** ** A coordinator to run the claims on *)

(** Integer data, no listener context; the loop clock reads 1.5 s, the
    update interval is 30 s and the jitter drawn is 0.2 s. *)
Definition demo_hass : HomeAssistant :=
  {| is_stopping := false; loop_time := 1500000 |}.

Definition demo : Coordinator Z unit :=
  __init__ demo_hass false "demo" (Some 30000000) None true None 150000.

Definition listener_A : callback :=
  {| cb_label := "A"; cb_unsubscribes := [] |}.

(** Unsubscribes itself (handle 1) and the listener registered after it. *)
Definition listener_B : callback :=
  {| cb_label := "B"; cb_unsubscribes := [1%nat; 2%nat] |}.

Definition listener_C : callback :=
  {| cb_label := "C"; cb_unsubscribes := [] |}.

Definition demo_listening : Coordinator Z unit :=
  final (async_add_listener listener_A None demo).

Definition demo_three_listeners : Coordinator Z unit :=
  final (exec_all [OpAddListener listener_A None;
                   OpAddListener listener_B None;
                   OpAddListener listener_C None] demo).

Definition demo_failed : Coordinator Z unit :=
  final (exec_all [OpAddListener listener_A None;
                   OpTimerFire (Some (Raises TimeoutError))] demo).

(** Unsubscribes the listener registered after it. *)
Definition listener_D : callback :=
  {| cb_label := "D"; cb_unsubscribes := [1%nat] |}.

(** Registered under handle 1, unsubscribes itself. *)
Definition listener_E : callback :=
  {| cb_label := "E"; cb_unsubscribes := [1%nat] |}.

Definition demo_double_unsubscribe : Coordinator Z unit :=
  final (exec_all [OpAddListener listener_D None;
                   OpAddListener listener_E None;
                   OpAddListener listener_C None] demo).

(** A coordinator tied to a config entry. *)
Definition demo_with_entry : Coordinator Z unit :=
  __init__ demo_hass false "demo" (Some 30000000) None true
    (Some {| pref_disable_polling := false |}) 150000.

(** The listening coordinator after its host began to stop. *)
Definition demo_stopping : Coordinator Z unit :=
  final (exec (OpEnvironment {| is_stopping := true; loop_time := 2000000 |}
                 false) demo_listening).

(** The listening coordinator after [async_shutdown]. *)
Definition demo_shut : Coordinator Z unit :=
  final (async_shutdown demo_listening).

(** The listening coordinator holding a value. *)
Definition demo_with_data : Coordinator Z unit :=
  final (exec (OpSetUpdatedData (Some 5)) demo_listening).

(** A coordinator whose only listener was removed again. *)
Definition demo_emptied : Coordinator Z unit :=
  final (exec_all [OpAddListener listener_A None; OpRemoveListener 0] demo).

Definition demo_timestamp : TimestampDataUpdateCoordinator (T := Z) (Ctx := unit) :=
  {| as_coordinator := demo_listening; last_update_success_time := None |}.

Definition demo_timestamp_shut : TimestampDataUpdateCoordinator (T := Z) (Ctx := unit) :=
  {| as_coordinator := demo_shut; last_update_success_time := None |}.

(** ** The model at work *)

Example demo_microsecond : _microsecond demo = 200000.
Proof. reflexivity. Qed.

Example demo_listening_armed : _unsub_refresh demo_listening = Some 31200000.
Proof. vm_compute. reflexivity. Qed.

Example demo_failed_flag :
  last_update_success demo_failed = false
  /\ last_exception demo_failed = Some TimeoutError.
Proof. vm_compute. split; reflexivity. Qed.

(** Outside the one-shot use of remove handles: the first callback
    unsubscribes the second, the second then unsubscribes itself, [dict.pop]
    raises KeyError and the third callback is not reached. *)
Example double_unsubscribe_raises :
  let r := async_update_listeners demo_double_unsubscribe in
  outcome r = Raise KeyError /\ invoked (trace r) = [listener_D; listener_E].
Proof. vm_compute. split; reflexivity. Qed.

(** ** Counterexamples to the claims the code does not meet *)

(** C1 as stated fails: the fetch raises ConfigEntryAuthFailed on a
    scheduled cycle that does not re-raise it, the flag was set, and the
    listener is notified. *)
Lemma auth_failure_notifies :
  let r := _async_refresh (Some (Raises ConfigEntryAuthFailed))
             true false true false demo_listening in
  aborts true demo_listening = false
  /\ notifications r = 1%nat
  /\ invoked (trace r) = [listener_A]
  /\ outcome r = Ok tt.
Proof. vm_compute. repeat split; reflexivity. Qed.

(** C2 as stated fails: after [shutdown()] the first listener added arms
    the timer. *)
Lemma add_listener_after_shutdown_arms :
  let s := final (async_shutdown demo) in
  let r := async_add_listener listener_A None s in
  _shutdown_requested s = true
  /\ trace r = [Enter m_schedule_refresh; CallAt 31200000]
  /\ _unsub_refresh (final r) = Some 31200000.
Proof. vm_compute. repeat split; reflexivity. Qed.

(** C7 as stated fails: the cycle leaves the flag cleared and the entry
    point raises ConfigEntryAuthFailed itself, not ConfigEntryNotReady. *)
Lemma first_refresh_reraises_auth_failure :
  let r := async_config_entry_first_refresh
             (Some (Raises ConfigEntryAuthFailed)) demo in
  last_update_success (final r) = false
  /\ outcome r = Raise ConfigEntryAuthFailed
  /\ forall cause, outcome r <> Raise (ConfigEntryNotReady cause).
Proof.
  vm_compute. split; [reflexivity|]. split; [reflexivity|].
  intros cause. discriminate.
Qed.

(** C9 as stated fails: at loop time 1.5 s the timer is set for 31.2 s, not
    for 1.5 s + 0.2 s + 30 s = 31.7 s. *)
Lemma arm_time_drops_fraction_of_now :
  let r := _schedule_refresh demo in
  _update_interval_seconds demo = Some 30000000
  /\ polling_disabled demo = false
  /\ _unsub_refresh (final r) = Some 31200000
  /\ loop_time (hass demo) + _microsecond demo + 30000000 = 31700000
  /\ _unsub_refresh (final r)
     <> Some (loop_time (hass demo) + _microsecond demo + 30000000).
Proof.
  vm_compute. repeat split; try reflexivity. discriminate.
Qed.

(** C8 as stated fails: three listeners are registered under the handles
    0, 1 and 2, in a state the coordinator reaches.  The callback of the
    first unsubscribes the second, the callback of the second then
    unsubscribes itself, [dict.pop] raises KeyError out of the loop, and the
    third listener, registered when the notification began, is never
    called. *)
Lemma notify_all_skips_after_double_unsubscribe :
  let c := demo_double_unsubscribe in
  let r := async_update_listeners c in
  reachable c
  /\ dict_keys (_listeners c) = [0; 1; 2]%nat
  /\ map fst (dict_values (_listeners c))
     = [listener_D; listener_E; listener_C]
  /\ cb_unsubscribes listener_D = [1%nat]
  /\ cb_unsubscribes listener_E = [1%nat]
  /\ outcome r = Raise KeyError
  /\ invoked (trace r) = [listener_D; listener_E]
  /\ ~ In listener_C (invoked (trace r))
  /\ invoked (trace r) <> map fst (dict_values (_listeners c)).
Proof.
  split.
  { exists demo_hass, false, "demo", (Some 30000000), None, true, None,
      150000, [OpAddListener listener_D None; OpAddListener listener_E None;
               OpAddListener listener_C None].
    reflexivity. }
  vm_compute.
  do 6 (split; [reflexivity|]). split.
  - intros [H|[H|[]]]; discriminate H.
  - intros H. discriminate H.
Qed.

(** ** The theorems at concrete inputs *)

Lemma programmer_error_propagates_witness :
  aborts true demo_listening = false
  /\ _async_update_data (T := Z) None = Raises NotImplementedError
  /\ outcome (_async_refresh None true false true false demo_listening)
     = Raise NotImplementedError
  /\ notifications (_async_refresh None true false true false demo_listening)
     = O.
Proof.
  split; [reflexivity|]. split; [reflexivity|].
  destruct (programmer_error_propagates demo_listening None
              true false true false eq_refl eq_refl) as (Ho & Hn & _).
  split; assumption.
Defined.

Lemma programmer_error_frame_witness :
  aborts false demo_listening = false
  /\ _async_update_data (T := Z) None = Raises NotImplementedError
  /\ last_update_success
       (final (_async_refresh None true false false false demo_listening))
     = true
  /\ data (final (_async_refresh None true false false false demo_listening))
     = None.
Proof.
  split; [reflexivity|]. split; [reflexivity|].
  destruct (programmer_error_frame demo_listening None
              true false false false eq_refl eq_refl) as (_ & Hd & Hl & _).
  split; assumption.
Defined.

Lemma rearm_decision_witness :
  aborts true demo_listening = false
  /\ arm_calls (_async_refresh (Some (Raises TimeoutError))
                  true false true false demo_listening) = 1%nat
  /\ timers_armed (_async_refresh (Some (Raises TimeoutError))
                     true false true false demo_listening) = 1%nat.
Proof.
  split; [reflexivity|].
  exact (rearm_decision demo_listening (Some (Raises TimeoutError))
           true false true false eq_refl).
Defined.

Lemma auth_failure_notification_witness :
  aborts true demo_failed = false
  /\ _async_update_data (T := Z) (Some (Raises ConfigEntryAuthFailed))
     = Raises ConfigEntryAuthFailed
  /\ notifications (_async_refresh (Some (Raises ConfigEntryAuthFailed))
                      true false true false demo_failed) = O
  /\ arm_calls (_async_refresh (Some (Raises ConfigEntryAuthFailed))
                  true false true false demo_failed) = O.
Proof.
  split; [reflexivity|]. split; [reflexivity|].
  exact (auth_failure_notification demo_failed
           (Some (Raises ConfigEntryAuthFailed)) true true false
           eq_refl eq_refl).
Defined.

Lemma notification_policy_witness :
  let r1 := _async_refresh (Some (Raises TimeoutError))
              true false true false demo_listening in
  let r2 := _async_refresh (Some (Raises (UpdateFailed "down")))
              true false true false (final r1) in
  completed r1 /\ completed r2
  /\ last_update_success demo_listening = true
  /\ (notifications r1 = 1%nat \/ notifications r1 = O)
  /\ notifications r1 = 1%nat /\ notifications r2 = O.
Proof.
  intros r1 r2.
  assert (H1 : completed r1) by (split; reflexivity).
  assert (H2 : completed r2) by (split; reflexivity).
  split; [exact H1|]. split; [exact H2|]. split; [reflexivity|].
  split.
  { exact (proj1 (proj1 (notification_policy demo_listening
                           (Some (Raises TimeoutError))
                           (Some (Raises (UpdateFailed "down")))
                           true false true false true false true false)
                    H1)). }
  exact (proj2 (notification_policy demo_listening
                  (Some (Raises TimeoutError))
                  (Some (Raises (UpdateFailed "down")))
                  true false true false true false true false)
           H1 H2 eq_refl eq_refl eq_refl).
Defined.

Lemma demo_failed_reachable : reachable demo_failed.
Proof.
  exists demo_hass, false, "demo", (Some 30000000), None, true, None, 150000,
    [OpAddListener listener_A None; OpTimerFire (Some (Raises TimeoutError))].
  reflexivity.
Defined.

Lemma success_flag_transitions_witness :
  let o := OpTimerFire (Some (Raises (UpdateFailed "again"))) in
  let o' := OpSetUpdatedData (Some 3) in
  reachable demo_failed
  /\ last_update_success demo_failed = false
  /\ is_failure o = true
  /\ last_update_success (final (exec o demo_failed)) = false
  /\ notifications (exec o demo_failed) = O
  /\ count_ev (is_log error) (trace (exec o demo_failed)) = O
  /\ last_update_success (final (exec o' demo_failed)) = true
  /\ is_success o' = true.
Proof.
  intros o o'. split; [exact demo_failed_reachable|].
  split; [reflexivity|]. split; [reflexivity|].
  destruct (proj2 (proj2 (success_flag_transitions demo_failed o
                            demo_failed_reachable)) eq_refl eq_refl)
    as (Hl & Hn & Hlog).
  split; [exact Hl|]. split; [exact Hn|]. split; [exact Hlog|].
  split; [reflexivity|].
  exact (proj1 (proj2 (success_flag_transitions demo_failed o'
                         demo_failed_reachable)) eq_refl eq_refl).
Defined.

Lemma shutdown_stops_fetching_witness :
  let ops := [OpTimerFire (Some (Returns (Some 7)));
              OpRequestRefresh (Some (Returns (Some 8)));
              OpFirstRefresh (Some (Returns (Some 9)))] in
  let s := final (async_shutdown demo_listening) in
  let s' := final (async_shutdown demo) in
  forallb (fun o => negb (arms_directly o)) ops = true
  /\ fetches (exec_all ops s) = O
  /\ timers_armed (exec_all ops s) = O
  /\ _unsub_refresh (final (exec_all ops s)) = None
  /\ _listeners s' = []
  /\ schedules s' = Some 31200000
  /\ _unsub_refresh (final (async_add_listener listener_A None s'))
     = Some 31200000.
Proof.
  intros ops s s'. split; [reflexivity|].
  destruct (shutdown_stops_fetching demo_listening ops)
    as (Hf & _ & Ht & _).
  split; [exact Hf|]. destruct (Ht eq_refl) as [Ht0 Hu0].
  split; [exact Ht0|]. split; [exact Hu0|].
  split; [reflexivity|]. split; [reflexivity|].
  destruct (shutdown_stops_fetching demo []) as (_ & _ & _ & Hadd).
  exact (proj2 (Hadd listener_A None 31200000 eq_refl eq_refl)).
Defined.

Lemma arm_time_witness :
  let c := final (exec_all
                    [OpAddListener listener_A None;
                     OpEnvironment {| is_stopping := false;
                                      loop_time := 61700000 |} false]
                    demo) in
  _update_interval_seconds c = Some 30000000
  /\ polling_disabled c = false
  /\ _unsub_refresh (final (_schedule_refresh c)) = Some 91200000
  /\ _microsecond c = 200000.
Proof.
  intros c. split; [reflexivity|]. split; [reflexivity|].
  destruct (arm_time (T := Z) (Ctx := unit) demo_hass false "demo" (Some 30000000) None true None
              150000
              [OpAddListener listener_A None;
               OpEnvironment {| is_stopping := false;
                                loop_time := 61700000 |} false]
              30000000 eq_refl eq_refl) as (Hu & _ & _ & Hm & _).
  split; [exact Hu | exact Hm].
Defined.

Lemma first_refresh_outcome_witness :
  aborts false demo_listening = false
  /\ _async_update_data (T := Z) (Some (Raises TimeoutError))
     = Raises TimeoutError
  /\ outcome (_async_refresh (Some (Raises TimeoutError))
                false true false true demo_listening) = Ok tt
  /\ outcome (async_config_entry_first_refresh
                (Some (Raises TimeoutError)) demo_listening)
     = Raise (ConfigEntryNotReady (Some TimeoutError))
  /\ outcome (async_config_entry_first_refresh
                (Some (Raises ConfigEntryError)) demo_listening)
     = Raise ConfigEntryError
  /\ outcome (_async_refresh (Some (Returns (Some 5)))
                false true false true demo_listening) = Ok tt
  /\ outcome (async_config_entry_first_refresh
                (Some (Returns (Some 5))) demo_listening) = Ok tt.
Proof.
  split; [reflexivity|]. split; [reflexivity|]. split; [reflexivity|].
  destruct (first_refresh_outcome demo_listening
              (Some (Raises TimeoutError))) as (_ & _ & _ & _ & Herr & _).
  split; [exact (proj2 (Herr TimeoutError eq_refl eq_refl) eq_refl)|].
  destruct (first_refresh_outcome demo_listening
              (Some (Raises ConfigEntryError)))
    as (_ & _ & _ & _ & Herr' & _).
  split; [exact (proj1 (Herr' ConfigEntryError eq_refl eq_refl)
                   (or_intror (or_introl eq_refl)))|].
  split; [reflexivity|].
  destruct (first_refresh_outcome demo_listening (Some (Returns (Some 5))))
    as (_ & _ & _ & _ & _ & Hret).
  exact (Hret (Some 5) eq_refl eq_refl eq_refl).
Defined.

Lemma demo_three_listeners_keys :
  dict_keys (_listeners demo_three_listeners) = [0; 1; 2]%nat.
Proof. reflexivity. Defined.

Lemma notify_all_snapshot_witness :
  List.NoDup (dict_keys (_listeners demo_three_listeners))
  /\ one_shot demo_three_listeners
  /\ outcome (async_update_listeners demo_three_listeners) = Ok tt
  /\ invoked (trace (async_update_listeners demo_three_listeners))
     = [listener_A; listener_B; listener_C]
  /\ dict_keys (_listeners
                  (final (async_update_listeners demo_three_listeners)))
     = [0%nat].
Proof.
  assert (Hnd : List.NoDup (dict_keys (_listeners demo_three_listeners))).
  { rewrite demo_three_listeners_keys.
    repeat (constructor; [simpl; intuition discriminate|]). constructor. }
  assert (Hone : one_shot demo_three_listeners).
  { split.
    - change (List.NoDup [1; 2]%nat).
      repeat (constructor; [simpl; intuition discriminate|]). constructor.
    - change (forall h, In h [1; 2]%nat -> In h [0; 1; 2]%nat).
      simpl. intuition. }
  split; [exact Hnd|]. split; [exact Hone|].
  destruct (proj2 (proj2 (notify_all_snapshot demo_three_listeners))
              Hnd Hone) as [Ho Hi].
  split; [exact Ho|]. split; [exact Hi | reflexivity].
Defined.

(** ** The further theorems at concrete inputs *)

Lemma set_update_error_effect_witness :
  last_update_success demo_failed = false
  /\ final (async_set_update_error (UpdateFailed "manual") demo_failed)
     = set_last_exception (Some (UpdateFailed "manual")) demo_failed
  /\ trace (async_set_update_error (UpdateFailed "manual") demo_failed) = [].
Proof.
  split; [reflexivity|].
  destruct (set_update_error_effect demo_failed (UpdateFailed "manual"))
    as (_ & _ & _ & _ & _ & _ & _ & _ & Hsame).
  exact (Hsame eq_refl).
Defined.

Lemma add_listener_effect_witness :
  dict_nonempty (_listeners demo_listening) = true
  /\ _unsub_refresh (final (async_add_listener listener_C None
                              demo_listening))
     = Some 31200000
  /\ trace (async_add_listener listener_C None demo_listening) = [].
Proof.
  split; [reflexivity|].
  destruct (add_listener_effect demo_listening listener_C None)
    as (_ & _ & _ & _ & _ & _ & Hlater).
  exact (Hlater eq_refl).
Defined.

Lemma demo_three_listeners_nodup :
  List.NoDup (dict_keys (_listeners demo_three_listeners)).
Proof.
  change (List.NoDup [0; 1; 2]%nat).
  repeat (constructor; [simpl; intuition discriminate|]). constructor.
Defined.

Lemma remove_listener_effect_witness :
  ~ In 7%nat (dict_keys (_listeners demo_three_listeners))
  /\ outcome (remove_listener 7 demo_three_listeners) = Raise KeyError
  /\ In 1%nat (dict_keys (_listeners demo_three_listeners))
  /\ List.NoDup (dict_keys (_listeners demo_three_listeners))
  /\ outcome (remove_listener 1 demo_three_listeners) = Ok tt
  /\ dict_nonempty
       (_listeners (final (remove_listener 1 demo_three_listeners))) = true
  /\ _unsub_refresh (final (remove_listener 1 demo_three_listeners))
     = _unsub_refresh demo_three_listeners.
Proof.
  assert (Hnot : ~ In 7%nat (dict_keys (_listeners demo_three_listeners))).
  { change (~ In 7%nat [0; 1; 2]%nat). simpl. intuition discriminate. }
  assert (Hin : In 1%nat (dict_keys (_listeners demo_three_listeners))).
  { change (In 1%nat [0; 1; 2]%nat). simpl. tauto. }
  split; [exact Hnot|].
  split; [exact (proj1 (proj1 (remove_listener_effect demo_three_listeners 7)
                          Hnot))|].
  split; [exact Hin|]. split; [exact demo_three_listeners_nodup|].
  destruct (proj2 (remove_listener_effect demo_three_listeners 1) Hin
              demo_three_listeners_nodup) as (Ho & _ & _ & Hne & _).
  split; [exact Ho|]. split; [reflexivity|]. exact (proj1 (Hne eq_refl)).
Defined.

Lemma demo_listening_handles_fresh : handles_fresh demo_listening.
Proof.
  split.
  - change (List.NoDup [0%nat]). repeat constructor. intros [].
  - change (forall k, In k [0%nat] -> (k < 1)%nat).
    intros k [<-|[]]. constructor.
Defined.

Lemma add_then_remove_witness :
  handles_fresh demo_listening
  /\ _listeners
       (final (remove_listener (next_handle demo_listening)
                 (final (async_add_listener listener_C (Some tt)
                           demo_listening))))
     = _listeners demo_listening.
Proof.
  split; [exact demo_listening_handles_fresh|].
  destruct (add_then_remove demo_listening listener_C (Some tt)
              demo_listening_handles_fresh) as (_ & Hl & _).
  exact Hl.
Defined.

Lemma register_shutdown_effect_witness :
  config_entry demo_with_entry <> None
  /\ outcome (async_register_shutdown demo_with_entry)
     = Raise (RuntimeError stop_message)
  /\ config_entry demo = None
  /\ outcome (async_register_shutdown demo) = Ok tt
  /\ count_ev is_unsub_shutdown
       (trace (async_shutdown (final (async_register_shutdown demo))))
     = 1%nat.
Proof.
  assert (Hce : config_entry demo_with_entry <> None) by discriminate.
  split; [exact Hce|].
  split; [exact (proj1 (proj1 (register_shutdown_effect demo_with_entry)
                          Hce))|].
  split; [reflexivity|].
  destruct (proj2 (register_shutdown_effect demo) eq_refl)
    as (Ho & _ & _ & Hcount).
  split; [exact Ho | exact Hcount].
Defined.

Lemma falsy_interval_disables_scheduling_witness :
  let c' := final (update_interval_setter (Some 0) demo_listening) in
  _update_interval_seconds c' = None
  /\ final (_schedule_refresh c') = c'
  /\ _update_interval_seconds
       (final (update_interval_setter (Some 60000000) demo_listening))
     = Some 60000000.
Proof.
  intros c'.
  destruct (falsy_interval_disables_scheduling demo_listening (Some 0))
    as (_ & _ & Hzero & _).
  destruct (Hzero (or_intror eq_refl)) as (Hn & Hsame & _).
  split; [exact Hn|]. split; [exact Hsame|].
  destruct (falsy_interval_disables_scheduling demo_listening
              (Some 60000000)) as (_ & _ & _ & Hnz).
  apply (Hnz 60000000 eq_refl). discriminate.
Defined.

Lemma refresh_while_host_stops_witness :
  is_stopping (hass demo_stopping) = true
  /\ _shutdown_requested demo_stopping = false
  /\ fetches (_handle_refresh_interval (Some (Returns (Some 1)))
                demo_stopping) = O
  /\ fetches (async_refresh (Some (Returns (Some 1))) demo_stopping) = 1%nat
  /\ arm_calls (async_refresh (Some (Returns (Some 1))) demo_stopping) = O.
Proof.
  split; [reflexivity|]. split; [reflexivity|].
  destruct (refresh_while_host_stops demo_stopping (Some (Returns (Some 1)))
              eq_refl eq_refl) as (_ & Hf & _ & _ & _ & Hm & Ha).
  split; [exact Hf|]. split; [exact Hm | exact Ha].
Defined.

Lemma data_kept_without_success_witness :
  let ops := [OpTimerFire (Some (Raises TimeoutError));
              OpSetUpdateError (UpdateFailed "manual");
              OpRefresh None;
              OpShutdown] in
  forallb (fun o => negb (is_success o)) ops = true
  /\ data demo_with_data = Some 5
  /\ data (final (exec_all ops demo_with_data)) = Some 5.
Proof.
  intros ops. split; [reflexivity|]. split; [reflexivity|].
  exact (data_kept_without_success demo_with_data ops eq_refl).
Defined.

Lemma exception_kept_by_success_witness :
  let ops := [OpTimerFire (Some (Returns (Some 1)))] in
  forallb (fun o => negb (is_failure o)) ops = true
  /\ last_update_success (final (exec_all ops demo_failed)) = true
  /\ last_exception (final (exec_all ops demo_failed)) = Some TimeoutError.
Proof.
  intros ops. split; [reflexivity|]. split; [reflexivity|].
  exact (exception_kept_by_success demo_failed ops eq_refl).
Defined.

Lemma cycle_logging_witness :
  aborts true demo_listening = false
  /\ logged (trace (_async_refresh (Some (Raises (URLError "timed out")))
                      true false true false demo_listening))
     = [(error, "Timeout fetching %s data")]
  /\ logged (trace (_async_refresh (Some (Raises KeyError))
                      false false true false demo_failed))
     = [(exception_, "Unexpected error fetching %s data: %s")].
Proof.
  split; [reflexivity|]. split.
  - exact (cycle_logging demo_listening
             (Some (Raises (URLError "timed out"))) true false true false
             eq_refl).
  - exact (cycle_logging demo_failed (Some (Raises KeyError))
             false false true false eq_refl).
Defined.

Lemma failure_has_cause_when_reachable_witness :
  reachable demo_failed
  /\ last_update_success demo_failed = false
  /\ last_exception demo_failed <> None.
Proof.
  split; [exact demo_failed_reachable|]. split; [reflexivity|].
  exact (failure_has_cause_when_reachable demo_failed demo_failed_reachable
           eq_refl).
Defined.

Lemma demo_emptied_reachable : reachable demo_emptied.
Proof.
  exists demo_hass, false, "demo", (Some 30000000), None, true, None, 150000,
    [OpAddListener listener_A None; OpRemoveListener 0].
  reflexivity.
Defined.

Lemma timer_needs_listener_when_reachable_witness :
  reachable demo_emptied
  /\ _listeners demo_emptied = []
  /\ _unsub_refresh demo_emptied = None.
Proof.
  split; [exact demo_emptied_reachable|]. split; [reflexivity|].
  exact (timer_needs_listener_when_reachable demo_emptied
           demo_emptied_reachable eq_refl).
Defined.

Lemma timestamp_follows_success_witness :
  aborts true demo_listening = false
  /\ last_update_success_time
       (fst (fst (Timestamp__async_refresh 77000000
                    (Some (Raises TimeoutError)) true false true false
                    demo_timestamp))) = None
  /\ last_update_success_time
       (fst (fst (Timestamp__async_refresh 77000000
                    (Some (Returns (Some 1))) true false true false
                    demo_timestamp))) = Some 77000000
  /\ aborts true demo_shut = true
  /\ last_update_success_time
       (fst (fst (Timestamp__async_refresh 77000000
                    (Some (Returns (Some 1))) true false true false
                    demo_timestamp_shut))) = Some 77000000.
Proof.
  split; [reflexivity|].
  split.
  { exact (proj1 (timestamp_follows_success demo_timestamp 77000000
                    (Some (Raises TimeoutError)) true false true false)
             eq_refl eq_refl). }
  split.
  { exact (proj1 (proj2 (timestamp_follows_success demo_timestamp 77000000
                           (Some (Returns (Some 1))) true false true false))
             eq_refl eq_refl eq_refl). }
  split; [reflexivity|].
  exact (proj2 (proj2 (proj2 (proj2 (timestamp_follows_success
                                       demo_timestamp_shut 77000000
                                       (Some (Returns (Some 1)))
                                       true false true false)) eq_refl))).
Defined.

Lemma fetch_once_unless_stopped_witness :
  aborts false demo_shut = true
  /\ fetches (_async_refresh (Some (Returns (Some 1))) true false false false
                demo_shut) = O
  /\ outcome (_async_refresh (Some (Returns (Some 1))) true false false false
                demo_shut) = Ok tt
  /\ data (final (_async_refresh (Some (Returns (Some 1)))
                    true false false false demo_shut)) = None.
Proof.
  split; [reflexivity|].
  destruct (fetch_once_unless_stopped demo_shut (Some (Returns (Some 1)))
              true false false false) as (Hf & Hstop).
  split; [exact Hf|].
  destruct (Hstop eq_refl) as (Ho & _ & _ & _ & Hd & _).
  split; [exact Ho | exact Hd].
Defined.

Lemma first_listener_starts_polling_witness :
  (30000000 <> 0)
  /\ _unsub_refresh (final (async_add_listener listener_A None demo))
     = Some 31200000.
Proof.
  assert (Hv : 30000000 <> 0) by discriminate.
  split; [exact Hv|].
  destruct (first_listener_starts_polling (T := Z) (Ctx := unit)
              demo_hass false "demo" 30000000 None true None 150000
              listener_A None Hv I) as (_ & _ & _ & _ & Hu & _).
  exact Hu.
Defined.
